(** * Trancendos discovery scanners: a shallow embedding

  This development embeds the two discovery scripts of the repository,

  - [scripts/discovery/scan-repositories.py] (class [RepositoryScanner]) and
  - [scripts/discovery/scan-platforms.py]    (class [PlatformScanner]),

  and states the properties of the inventory specification over them.

  Python objects with state ([self.scan_results], standard output) are
  threaded through an exception-and-state monad in which a raised
  exception keeps the mutations done before it, as in Python.  The remote
  services (GitHub, Notion), the process environment and the wall clock
  are inputs of the model: what a call returned, or the exception it
  raised, is a field of the object the code calls it on. *)

From Stdlib Require Import ZArith List String Bool Lia.
From stdpp Require Import base option list gmap strings fin_maps.
Import ListNotations.

Set Warnings "-register-all".
Local Open Scope string_scope.
Local Open Scope list_scope.
Local Open Scope Z_scope.

(** ** Python values, exceptions and the small runtime the scripts rely on *)

Module Py.

(** The exception classes the two scripts can meet.  [GithubException] is
    the only class [scan_repository] catches by name; a bare [except:] and
    [except Exception] catch every class listed here. *)
Inductive exn_class : Type :=
| KeyError | IndexError | AttributeError | TypeError
| ImportError | GithubException | OtherException.

(** An exception: its class and the text [str(e)] gives. *)
Record exn : Type := mkExn { exn_cls : exn_class; exn_msg : string }.

Definition is_github (e : exn) : bool :=
  match exn_cls e with GithubException => true | _ => false end.

Definition is_import_error (e : exn) : bool :=
  match exn_cls e with ImportError => true | _ => false end.

(** Outcome of an expression: a value or a raised exception. *)
Inductive result (A : Type) : Type :=
| Ok (a : A)
| Raise (e : exn).
Arguments Ok {A} a.
Arguments Raise {A} e.

Definition is_ok {A} (r : result A) : bool :=
  match r with Ok _ => true | Raise _ => false end.

(** Pure exception monad, for expressions without state. *)
Definition rbind {A B} (r : result A) (k : A -> result B) : result B :=
  match r with Ok a => k a | Raise e => Raise e end.

(** [for x in xs: acc.append(f(x))] where [f] may raise: the first
    exception ends the loop. *)
Fixpoint rmap {A B} (f : A -> result B) (xs : list A) : result (list B) :=
  match xs with
  | [] => Ok []
  | x :: rest =>
      rbind (f x) (fun y => rbind (rmap f rest) (fun ys => Ok (y :: ys)))
  end.

(** JSON-shaped Python values, as a decoded API response holds them. *)
Inductive pyval : Type :=
| PNone
| PBool (b : bool)
| PInt (n : Z)
| PStr (s : string)
| PList (items : list pyval)
| PDict (entries : list (string * pyval)).

(** First binding of a key in a dictionary literal's entries. *)
Fixpoint assoc (k : string) (entries : list (string * pyval)) : option pyval :=
  match entries with
  | [] => None
  | (k', v) :: rest => if String.eqb k k' then Some v else assoc k rest
  end.

(** [v.get(key, default)]: only dictionaries have a [get] method. *)
Definition get_default (v : pyval) (key : string) (default : pyval) : result pyval :=
  match v with
  | PDict entries =>
      Ok (match assoc key entries with Some x => x | None => default end)
  | _ => Raise (mkExn AttributeError "object has no attribute 'get'")
  end.

(** [v.get(key)], whose default is [None]. *)
Definition get (v : pyval) (key : string) : result pyval :=
  get_default v key PNone.

(** [v[key]] with a string key. *)
Definition getitem (v : pyval) (key : string) : result pyval :=
  match v with
  | PDict entries =>
      match assoc key entries with
      | Some x => Ok x
      | None => Raise (mkExn KeyError ("'" ++ key ++ "'"))
      end
  | PList _ => Raise (mkExn TypeError "list indices must be integers or slices, not str")
  | PStr _ => Raise (mkExn TypeError "string indices must be integers, not 'str'")
  | _ => Raise (mkExn TypeError "object is not subscriptable")
  end.

(** [v[0]]. *)
Definition getitem0 (v : pyval) : result pyval :=
  match v with
  | PList (x :: _) => Ok x
  | PList [] => Raise (mkExn IndexError "list index out of range")
  | PStr (String c _) => Ok (PStr (String c EmptyString))
  | PStr EmptyString => Raise (mkExn IndexError "string index out of range")
  | PDict _ => Raise (mkExn KeyError "0")
  | _ => Raise (mkExn TypeError "object is not subscriptable")
  end.

(** The items a [for] loop over [v] visits. *)
Fixpoint chars (s : string) : list pyval :=
  match s with
  | EmptyString => []
  | String c rest => PStr (String c EmptyString) :: chars rest
  end.

Definition iter (v : pyval) : result (list pyval) :=
  match v with
  | PList items => Ok items
  | PDict entries => Ok (map (fun kv => PStr (fst kv)) entries)
  | PStr s => Ok (chars s)
  | _ => Raise (mkExn TypeError "object is not iterable")
  end.

(** Truth value of an optional string such as [os.environ.get(k)]:
    [None] and the empty string are false. *)
Definition truthy_str (o : option string) : bool :=
  match o with
  | Some s => negb (String.eqb s "")
  | None => false
  end.

(** [str(e)]. *)
Definition str_exn (e : exn) : string := exn_msg e.

(** Computations over an object with state [S]: a value or an exception,
    and the state left behind in either case. *)
Definition M (S A : Type) : Type := S -> result A * S.

Definition ret {S A} (a : A) : M S A := fun st => (Ok a, st).

Definition bind {S A B} (m : M S A) (k : A -> M S B) : M S B :=
  fun st =>
    match m st with
    | (Ok a, st') => k a st'
    | (Raise e, st') => (Raise e, st')
    end.

Definition throw {S A} (e : exn) : M S A := fun st => (Raise e, st).

(** A call whose outcome is an input of the model. *)
Definition call {S A} (r : result A) : M S A := fun st => (r, st).

(** [try: body  except <class accepted by catches> as e: handler e]. *)
Definition try_except {S A} (body : M S A) (catches : exn -> bool)
    (handler : exn -> M S A) : M S A :=
  fun st =>
    match body st with
    | (Ok a, st') => (Ok a, st')
    | (Raise e, st') => if catches e then handler e st' else (Raise e, st')
    end.

Declare Scope scan_scope.
Delimit Scope scan_scope with scan.
Notation "x <- m ;; k" := (bind m (fun x => k))
  (at level 100, m at next level, right associativity) : scan_scope.
Notation "m ;;; k" := (bind m (fun _ => k))
  (at level 100, right associativity) : scan_scope.

End Py.
Import Py.

(** ** [scan-repositories.py] *)

Module RepositoryScanner.

(** *** The GitHub objects the scanner reads *)

Record Workflow : Type := mkWorkflow {
  wf_name : string; wf_path : string; wf_state : string
}.

(** A PyGithub [Repository]: its attributes, and for each method the
    scanner calls, what the call yields.  Times are seconds since the
    epoch.  [repo_get_commits] lists the author dates of the commits,
    newest first.  [repo_get_workflows] is a lazy sequence: the items
    delivered and the exception, if any, that ends the iteration. *)
Record Repository : Type := mkRepository {
  repo_id : Z;
  repo_name : string;
  repo_full_name : string;
  repo_description : option string;
  repo_html_url : string;
  repo_private : bool;
  repo_fork : bool;
  repo_archived : bool;
  repo_disabled : bool;
  repo_created_at : option Z;
  repo_updated_at : option Z;
  repo_pushed_at : option Z;
  repo_size : Z;
  repo_default_branch : string;
  repo_stargazers_count : Z;
  repo_forks_count : Z;
  repo_watchers_count : Z;
  repo_open_issues_count : Z;
  repo_has_issues : bool;
  repo_has_projects : bool;
  repo_has_wiki : bool;
  repo_has_pages : bool;
  repo_has_downloads : bool;
  repo_license : option string;
  repo_get_commits : result (list Z);
  repo_get_workflows : list Workflow * option exn;
  repo_get_languages : result (list (string * Z));
  repo_get_branches : result (list string);
  repo_get_tags : result (list string);
  repo_get_topics : result (list string)
}.

(** [self.user], a PyGithub [AuthenticatedUser].  The object is filled in
    on first use, so reading an attribute is a call that may raise. *)
Record User : Type := mkUser {
  user_login : result string;
  user_public_repos : result Z
}.

(** What iterating [self.user.get_repos()] yields.  The listing is fetched
    page by page while the loop runs: [delivered] are the repositories it
    hands over, and [failure] the exception, if any, raised when the one
    after them is asked for. *)
Record Listing : Type := mkListing {
  delivered : list Repository;
  failure : option exn
}.

(** *** [classify_repository] *)

(** [(datetime.now() - date).days]: whole days, rounded down. *)
Definition timedelta_days (now date : Z) : Z := (now - date) / 86400.

(** Lines 56-61: the age of the latest commit, or 999 when there is no
    commit or anything in the [try] block raised.  [now] is the value of
    [datetime.now()], the local wall clock without a zone, and the date is
    subtracted from it as it comes; a date that carries a zone makes the
    subtraction raise [TypeError], which is one of the [Raise] cases. *)
Definition days_since_commit (now : Z) (repo : Repository) : Z :=
  match repo_get_commits repo with
  | Ok (latest :: _) => timedelta_days now latest
  | Ok [] => 999
  | Raise _ => 999
  end.

Definition core_repos : list string :=
  [ "trancendos-ecosystem";
    "Luminous-MastermindAI";
    "Trancendos-Core";
    "compliance-framework";
    "platform-sync-buffer";
    "Trancendos" ].

Definition classify_repository (now : Z) (repo : Repository) : string :=
  let days_since_commit := days_since_commit now repo in
  let open_issues := repo_open_issues_count repo in
  if bool_decide (repo_name repo ∈ core_repos) then "CORE"
  else if (days_since_commit <? 30) || (open_issues >? 5) then "ACTIVE"
  else if (days_since_commit >? 180) && (repo_size repo >? 0) then "ARCHIVE"
  else if repo_fork repo || (repo_size repo =? 0) then "DEPRECATE"
  else "CONSOLIDATE".

(** *** Scanner state *)

(** The dictionary built for one repository (lines 121-152).  Times are
    kept as the instants themselves; their ISO rendering is not modelled. *)
Record RepoData : Type := mkRepoData {
  d_id : Z;
  d_name : string;
  d_full_name : string;
  d_description : option string;
  d_html_url : string;
  d_classification : string;
  d_visibility : string;
  d_fork : bool;
  d_archived : bool;
  d_disabled : bool;
  d_created_at : Z;
  d_updated_at : Z;
  d_pushed_at : option Z;
  d_size_kb : Z;
  d_default_branch : string;
  d_languages : list (string * Z);
  d_stars : Z;
  d_forks : Z;
  d_watchers : Z;
  d_open_issues : Z;
  d_has_issues : bool;
  d_has_projects : bool;
  d_has_wiki : bool;
  d_has_pages : bool;
  d_has_downloads : bool;
  d_topics : list string;
  d_branches : list string;
  d_tags : list string;
  d_workflows : list Workflow;
  d_license : option string
}.

(** [self.scan_results]. *)
Record ScanResults : Type := mkScanResults {
  scan_timestamp : Z;
  scanner_version : string;
  total_repos : Z;
  repositories : list RepoData;
  classifications : gmap string (list string)
}.

(** What the scanner prints, one constructor per [print] call. *)
Inductive Line : Type :=
| LScanningFor (login : string)
| LTotalRepositories (n : Z)
| LProgress (index : Z) (full_name : string)
| LClassified (classification : string)
| LError
| LErrorScanning (name : string) (e : exn)
| LSummaryHeader
| LSummary (classification : string) (n : nat).

Record State : Type := mkState {
  scan_results : ScanResults;
  stdout : list Line
}.

Definition M (A : Type) : Type := Py.M State A.

Definition print (l : Line) : M unit :=
  fun st => (Ok tt, mkState (scan_results st) (stdout st ++ [l])).

Definition modify_results (f : ScanResults -> ScanResults) : M unit :=
  fun st => (Ok tt, mkState (f (scan_results st)) (stdout st)).

Definition get_results : M ScanResults := fun st => (Ok (scan_results st), st).

Local Open Scope scan_scope.

(** [__init__] (lines 30-42); [utcnow] is the clock reading at
    construction. *)
Definition init_results (utcnow : Z) : ScanResults :=
  {| scan_timestamp := utcnow;
     scanner_version := "1.0.0";
     total_repos := 0;
     repositories := [];
     classifications :=
       <["CORE" := []]> (<["ACTIVE" := []]> (<["CONSOLIDATE" := []]>
       (<["ARCHIVE" := []]> (<["DEPRECATE" := []]> ∅)))) |}.

Definition init (utcnow : Z) : State :=
  {| scan_results := init_results utcnow; stdout := [] |}.

(** *** [scan_repository] *)

(** Lines 99-108: the workflows delivered before the iteration ended; the
    bare [except: pass] discards whatever ended it. *)
Definition collect_workflows (repo : Repository) : list Workflow :=
  fst (repo_get_workflows repo).

(** [x.isoformat()] on an attribute that may be [None]. *)
Definition isoformat (t : option Z) : result Z :=
  match t with
  | Some z => Ok z
  | None => Raise (mkExn AttributeError "'NoneType' object has no attribute 'isoformat'")
  end.

(** [self.scan_results["classifications"][classification].append(name)]. *)
Definition append_classification (classification name : string) : M unit :=
  r <- get_results ;;
  match classifications r !! classification with
  | Some names =>
      modify_results (fun r =>
        mkScanResults (scan_timestamp r) (scanner_version r) (total_repos r)
          (repositories r)
          (<[classification := names ++ [name]]> (classifications r)))
  | None => throw (mkExn KeyError ("'" ++ classification ++ "'"))
  end.

(** [self.scan_results["repositories"].append(repo_data)]. *)
Definition append_repository (repo_data : RepoData) : M unit :=
  modify_results (fun r =>
    mkScanResults (scan_timestamp r) (scanner_version r) (total_repos r)
      (repositories r ++ [repo_data]) (classifications r)).

(** Lines 98-152: the fetches and attribute reads that build
    [repo_data], in evaluation order; the first exception ends them. *)
Definition build_repo_data (now : Z) (repo : Repository) : result RepoData :=
  let workflows := collect_workflows repo in
  rbind (repo_get_languages repo) (fun languages =>
  rbind (repo_get_branches repo) (fun branches =>
  rbind (repo_get_tags repo) (fun all_tags =>
  let tags := firstn 10 all_tags in
  let classification := classify_repository now repo in
  rbind (isoformat (repo_created_at repo)) (fun created_at =>
  rbind (isoformat (repo_updated_at repo)) (fun updated_at =>
  rbind (repo_get_topics repo) (fun topics =>
  Ok {| d_id := repo_id repo;
        d_name := repo_name repo;
        d_full_name := repo_full_name repo;
        d_description := repo_description repo;
        d_html_url := repo_html_url repo;
        d_classification := classification;
        d_visibility := if repo_private repo then "private" else "public";
        d_fork := repo_fork repo;
        d_archived := repo_archived repo;
        d_disabled := repo_disabled repo;
        d_created_at := created_at;
        d_updated_at := updated_at;
        d_pushed_at := repo_pushed_at repo;
        d_size_kb := repo_size repo;
        d_default_branch := repo_default_branch repo;
        d_languages := languages;
        d_stars := repo_stargazers_count repo;
        d_forks := repo_forks_count repo;
        d_watchers := repo_watchers_count repo;
        d_open_issues := repo_open_issues_count repo;
        d_has_issues := repo_has_issues repo;
        d_has_projects := repo_has_projects repo;
        d_has_wiki := repo_has_wiki repo;
        d_has_pages := repo_has_pages repo;
        d_has_downloads := repo_has_downloads repo;
        d_topics := topics;
        d_branches := branches;
        d_tags := tags;
        d_workflows := workflows;
        d_license := repo_license repo |})))))).

(** The body of the outer [try] (lines 98-157). *)
Definition scan_repository_body (now : Z) (repo : Repository) : M (option RepoData) :=
  repo_data <- call (build_repo_data now repo) ;;
  append_repository repo_data ;;;
  append_classification (d_classification repo_data) (repo_name repo) ;;;
  ret (Some repo_data).

(** Lines 95-161.  [None] is the value returned by the handler. *)
Definition scan_repository (now : Z) (repo : Repository) : M (option RepoData) :=
  try_except (scan_repository_body now repo) is_github
    (fun e => print (LErrorScanning (repo_name repo) e) ;;; ret None).

(** *** [scan_all_repositories] *)

(** [max_repos and count >= max_repos]: [None] and [0] are false. *)
Definition limit_reached (max_repos : option Z) (count : Z) : bool :=
  match max_repos with
  | None => false
  | Some n => negb (n =? 0) && (count >=? n)
  end.

(** The [for] loop of lines 171-181 over a listing that delivers [repos]
    and then ends, or raises [failure]; the value is [count] on exit.  The
    next repository is asked for before the limit is looked at. *)
Fixpoint scan_loop (now : Z) (max_repos : option Z) (repos : list Repository)
    (failure : option exn) (count : Z) : M Z :=
  match repos with
  | [] =>
      match failure with
      | Some e => throw e
      | None => ret count
      end
  | repo :: rest =>
      if limit_reached max_repos count then ret count
      else
        print (LProgress (count + 1) (repo_full_name repo)) ;;;
        result <- scan_repository now repo ;;
        match result with
        | Some data => print (LClassified (d_classification data))
        | None => print LError
        end ;;;
        scan_loop now max_repos rest failure (count + 1)
  end.

Definition set_total_repos (count : Z) : M unit :=
  modify_results (fun r =>
    mkScanResults (scan_timestamp r) (scanner_version r) count
      (repositories r) (classifications r)).

(** The keys of [classifications], in the order [__init__] inserts them. *)
Definition labels : list string :=
  ["CORE"; "ACTIVE"; "CONSOLIDATE"; "ARCHIVE"; "DEPRECATE"].

Fixpoint print_summary (r : ScanResults) (ls : list string) : M unit :=
  match ls with
  | [] => ret tt
  | l :: rest =>
      match classifications r !! l with
      | Some names => print (LSummary l (length names)) ;;; print_summary r rest
      | None => print_summary r rest
      end
  end.

(** Lines 163-190.  [user] is [self.user], [repos] what iterating
    [self.user.get_repos()] yields, and [now] the reading of
    [datetime.now()] during the run.  The two reads of the account and the
    iteration stand outside every [try]. *)
Definition scan_all_repositories (user : User) (now : Z)
    (max_repos : option Z) (repos : Listing) : M ScanResults :=
  login <- call (user_login user) ;;
  print (LScanningFor login) ;;;
  public_repos <- call (user_public_repos user) ;;
  print (LTotalRepositories public_repos) ;;;
  count <- scan_loop now max_repos (delivered repos) (failure repos) 0 ;;
  set_total_repos count ;;;
  print LSummaryHeader ;;;
  r <- get_results ;;
  print_summary r labels ;;;
  get_results.

End RepositoryScanner.

(** ** [scan-platforms.py] *)

Module PlatformScanner.

(** *** The Notion service *)

(** What the run meets when it reaches for Notion: whether the
    [notion_client] package can be imported, and what the two
    [notion.search] calls yield (a decoded response or an exception). *)
Record Notion : Type := mkNotion {
  notion_client_installed : bool;
  search_pages : result pyval;
  search_databases : result pyval
}.

(** One entry of the [pages] list (lines 42-48). *)
Record Page : Type := mkPage {
  page_id : pyval;
  page_title : pyval;
  page_url : pyval;
  page_created_time : pyval;
  page_last_edited_time : pyval
}.

(** One entry of the [databases] list (lines 55-59). *)
Record Database : Type := mkDatabase {
  db_id : pyval;
  db_title : pyval;
  db_url : pyval
}.

(** The dictionaries the three platform scans return, by their [status]. *)
Inductive PlatformResult : Type :=
| Success (total_pages total_databases : nat)
          (pages : list Page) (databases : list Database)
| Skipped (reason : string)
| Error (error : string)
| NotImplemented.

Definition status (r : PlatformResult) : string :=
  match r with
  | Success _ _ _ _ => "success"
  | Skipped _ => "skipped"
  | Error _ => "error"
  | NotImplemented => "not_implemented"
  end.

(** [r["pages"]], [r["total_pages"]] and [r["databases"]] of a result
    that has these keys. *)
Definition pages_of (r : PlatformResult) : list Page :=
  match r with Success _ _ pages _ => pages | _ => [] end.

Definition total_pages_of (r : PlatformResult) : nat :=
  match r with Success total_pages _ _ _ => total_pages | _ => O end.

Definition databases_of (r : PlatformResult) : list Database :=
  match r with Success _ _ _ databases => databases | _ => [] end.

(** [self.scan_results]. *)
Record ScanResults : Type := mkScanResults {
  scan_timestamp : Z;
  scanner_version : string;
  platforms : gmap string PlatformResult
}.

Inductive Line : Type :=
| LScanningPlatforms
| LScanning (platform : string)
| LNotInstalled
| LErrorScanning (e : exn)
| LNotSet (variable platform : string).

Record State : Type := mkState {
  scan_results : ScanResults;
  stdout : list Line
}.

Definition M (A : Type) : Type := Py.M State A.

Definition print (l : Line) : M unit :=
  fun st => (Ok tt, mkState (scan_results st) (stdout st ++ [l])).

(** [self.scan_results["platforms"][platform] = r]. *)
Definition set_platform (platform : string) (r : PlatformResult) : M unit :=
  fun st =>
    (Ok tt,
     mkState
       (mkScanResults (scan_timestamp (scan_results st))
          (scanner_version (scan_results st))
          (<[platform := r]> (platforms (scan_results st))))
       (stdout st)).

Definition get_results : M ScanResults := fun st => (Ok (scan_results st), st).

Local Open Scope scan_scope.

Definition init (utcnow : Z) : State :=
  {| scan_results :=
       {| scan_timestamp := utcnow; scanner_version := "1.0.0"; platforms := ∅ |};
     stdout := [] |}.

(** *** [scan_notion] *)

(** Line 44:
    [page.get("properties", {}).get("title", {}).get("title", [{}])[0]
         .get("plain_text", "Untitled")]. *)
Definition page_title_of (page : pyval) : result pyval :=
  rbind (get_default page "properties" (PDict [])) (fun properties =>
  rbind (get_default properties "title" (PDict [])) (fun title_property =>
  rbind (get_default title_property "title" (PList [PDict []])) (fun rich_text =>
  rbind (getitem0 rich_text) (fun first =>
  get_default first "plain_text" (PStr "Untitled"))))).

(** The dictionary appended for one page (lines 42-48), keys in order. *)
Definition extract_page (page : pyval) : result Page :=
  rbind (getitem page "id") (fun id =>
  rbind (page_title_of page) (fun title =>
  rbind (get page "url") (fun url =>
  rbind (get page "created_time") (fun created_time =>
  rbind (get page "last_edited_time") (fun last_edited_time =>
  Ok (mkPage id title url created_time last_edited_time)))))).

(** Line 57: [db.get("title", [{}])[0].get("plain_text", "Untitled")]. *)
Definition db_title_of (db : pyval) : result pyval :=
  rbind (get_default db "title" (PList [PDict []])) (fun rich_text =>
  rbind (getitem0 rich_text) (fun first =>
  get_default first "plain_text" (PStr "Untitled"))).

(** The dictionary appended for one database (lines 55-59). *)
Definition extract_database (db : pyval) : result Database :=
  rbind (getitem db "id") (fun id =>
  rbind (db_title_of db) (fun title =>
  rbind (get db "url") (fun url =>
  Ok (mkDatabase id title url)))).

(** [for x in response.get("results", []): acc.append(extract(x))]. *)
Definition extract_all {A} (extract : pyval -> result A) (response : pyval)
    : result (list A) :=
  rbind (get_default response "results" (PList [])) (fun results =>
  rbind (iter results) (fun items =>
  rmap extract items)).

(** [from notion_client import Client]. *)
Definition import_client (notion : Notion) : result unit :=
  if notion_client_installed notion then Ok tt
  else Raise (mkExn ImportError "No module named 'notion_client'").

(** The [try] block of lines 31-67. *)
Definition scan_notion_body (notion : Notion) : result PlatformResult :=
  rbind (import_client notion) (fun _ =>
  rbind (search_pages notion) (fun results =>
  rbind (extract_all extract_page results) (fun pages =>
  rbind (search_databases notion) (fun db_results =>
  rbind (extract_all extract_database db_results) (fun databases =>
  Ok (Success (length pages) (length databases)
        (firstn 50 pages) databases)))))).

(** Lines 27-74.  The two handlers catch every exception, so the
    function always returns a dictionary. *)
Definition scan_notion (notion : Notion) (api_key : string) : M PlatformResult :=
  print (LScanning "Notion") ;;;
  try_except (call (scan_notion_body notion)) (fun _ => true)
    (fun e =>
       if is_import_error e then
         print LNotInstalled ;;;
         ret (Skipped "notion-client not installed")
       else
         print (LErrorScanning e) ;;;
         ret (Error (str_exn e))).

Definition scan_linear (api_key : string) : M PlatformResult :=
  print (LScanning "Linear") ;;;
  ret NotImplemented.

Definition scan_jira (api_token : string) : M PlatformResult :=
  print (LScanning "Jira") ;;;
  ret NotImplemented.

(** *** [scan_all_platforms] *)

(** One of the three blocks of lines 94-113:
    [key = os.environ.get(variable)]
    [if key: platforms[platform] = scan(key)  else: print(...)]. *)
Definition scan_if_configured (environ : gmap string string)
    (variable platform title : string)
    (scan : string -> M PlatformResult) : M unit :=
  let key := environ !! variable in
  if truthy_str key then
    r <- scan (default "" key) ;;
    set_platform platform r
  else print (LNotSet variable title).

(** Lines 90-115; [environ] is [os.environ]. *)
Definition scan_all_platforms (environ : gmap string string)
    (notion : Notion) : M ScanResults :=
  print LScanningPlatforms ;;;
  scan_if_configured environ "NOTION_API_KEY" "notion" "Notion" (scan_notion notion) ;;;
  scan_if_configured environ "LINEAR_API_KEY" "linear" "Linear" scan_linear ;;;
  scan_if_configured environ "JIRA_API_TOKEN" "jira" "Jira" scan_jira ;;;
  get_results.

End PlatformScanner.

(** ** The classification policy as the specification words it *)

Module Policy.
Import RepositoryScanner.

(** A decision table: guarded labels tried in order, and the label of the
    first guard that holds (the default when none does). *)
Inductive first_fired {A L : Type} (x : A) (default : L)
    : list ((A -> bool) * L) -> L -> Prop :=
| fired_default : first_fired x default [] default
| fired_here guard label rest :
    guard x = true -> first_fired x default ((guard, label) :: rest) label
| fired_later guard label rest label' :
    guard x = false ->
    first_fired x default rest label' ->
    first_fired x default ((guard, label) :: rest) label'.

Definition in_allow_list (repo : Repository) : bool :=
  bool_decide (repo_name repo ∈ core_repos).

(** Rules 2 and 3: recent activity, or more than five open items. *)
Definition is_active (days : Z) (repo : Repository) : bool :=
  (days <? 30) || (repo_open_issues_count repo >? 5).

(** Rule 4: stale and not empty. *)
Definition is_archive (days : Z) (repo : Repository) : bool :=
  (days >? 180) && (repo_size repo >? 0).

(** Rule 5: a fork, or zero size. *)
Definition is_deprecate (repo : Repository) : bool :=
  repo_fork repo || (repo_size repo =? 0).

(** The decision table in the specification's words: the evaluation order
    of its section 4.2, rules 1 to 5 (rule 6 is the default), over a
    resource whose [daysSinceLastActivity] is [days]. *)
Definition policy_rules (days : Z) : list ((Repository -> bool) * string) :=
  [ (in_allow_list, "CORE");
    (is_active days, "ACTIVE");
    (is_archive days, "ARCHIVE");
    (is_deprecate, "DEPRECATE") ].

Definition policy_default : string := "CONSOLIDATE".

(** The same repository object, answering [get_commits()] with [commits]. *)
Definition with_commits (commits : result (list Z)) (repo : Repository)
    : Repository :=
  {| repo_id := repo_id repo;
     repo_name := repo_name repo;
     repo_full_name := repo_full_name repo;
     repo_description := repo_description repo;
     repo_html_url := repo_html_url repo;
     repo_private := repo_private repo;
     repo_fork := repo_fork repo;
     repo_archived := repo_archived repo;
     repo_disabled := repo_disabled repo;
     repo_created_at := repo_created_at repo;
     repo_updated_at := repo_updated_at repo;
     repo_pushed_at := repo_pushed_at repo;
     repo_size := repo_size repo;
     repo_default_branch := repo_default_branch repo;
     repo_stargazers_count := repo_stargazers_count repo;
     repo_forks_count := repo_forks_count repo;
     repo_watchers_count := repo_watchers_count repo;
     repo_open_issues_count := repo_open_issues_count repo;
     repo_has_issues := repo_has_issues repo;
     repo_has_projects := repo_has_projects repo;
     repo_has_wiki := repo_has_wiki repo;
     repo_has_pages := repo_has_pages repo;
     repo_has_downloads := repo_has_downloads repo;
     repo_license := repo_license repo;
     repo_get_commits := commits;
     repo_get_workflows := repo_get_workflows repo;
     repo_get_languages := repo_get_languages repo;
     repo_get_branches := repo_get_branches repo;
     repo_get_tags := repo_get_tags repo;
     repo_get_topics := repo_get_topics repo |}.

(** No commit date could be had: the listing raised, or it is empty. *)
Definition activity_unknown (repo : Repository) : Prop :=
  match repo_get_commits repo with
  | Ok (_ :: _) => False
  | Ok [] => True
  | Raise _ => True
  end.

(** The reading of the specification under which the label depends on
    the repository's own attributes only: neither on the clock nor on
    what the commit listing answers at the time of the call. *)
Definition label_fixed_by_record : Prop :=
  forall (now now' : Z) (commits commits' : result (list Z)) (repo : Repository),
    classify_repository now (with_commits commits repo) =
    classify_repository now' (with_commits commits' repo).

End Policy.

(** ** Runs in closed form *)

Module Runs.
Import RepositoryScanner.

(** The repositories the loop of [scan_all_repositories] scans before it
    ends, entered with [count]. *)
Fixpoint visited (max_repos : option Z) (repos : list Repository) (count : Z)
    : list Repository :=
  match repos with
  | [] => []
  | repo :: rest =>
      if limit_reached max_repos count then []
      else repo :: visited max_repos rest (count + 1)
  end.

(** The exception the loop meets when it asks the listing for a
    repository it cannot deliver; none when the limit ends the loop
    first. *)
Fixpoint loop_failure (max_repos : option Z) (repos : list Repository)
    (failure : option exn) (count : Z) : option exn :=
  match repos with
  | [] => failure
  | _ :: rest =>
      if limit_reached max_repos count then None
      else loop_failure max_repos rest failure (count + 1)
  end.

Definition listing_raises (max_repos : option Z) (repos : Listing) : option exn :=
  loop_failure max_repos (delivered repos) (failure repos) 0.

(** Both reads of the account succeed. *)
Definition account_loaded (user : User) : bool :=
  is_ok (user_login user) && is_ok (user_public_repos user).

(** The repositories a call of [scan_all_repositories] scans: none when
    a read of the account raises before the loop. *)
Definition scanned (user : User) (max_repos : option Z) (repos : Listing)
    : list Repository :=
  if account_loaded user then visited max_repos (delivered repos) 0 else [].

(** A listing that delivers [repos] and ends. *)
Definition complete (repos : list Repository) : Listing :=
  {| delivered := repos; failure := None |}.

(** The entry [scan_repository] records for a repository, if any. *)
Definition outcome (now : Z) (repo : Repository) : option RepoData :=
  match build_repo_data now repo with
  | Ok repo_data => Some repo_data
  | Raise _ => None
  end.

(** Nothing but a [GithubException] is raised while the repository is
    scanned. *)
Definition github_only (now : Z) (repo : Repository) : Prop :=
  match build_repo_data now repo with
  | Ok _ => True
  | Raise e => is_github e = true
  end.


(** Every bucket [__init__] creates is there. *)
Definition buckets_ok (r : ScanResults) : Prop :=
  forall l, l ∈ labels -> is_Some (classifications r !! l).

(** The two appends of lines 154-155. *)
Definition record (r : ScanResults) (repo_data : RepoData) : ScanResults :=
  let classification := d_classification repo_data in
  mkScanResults (scan_timestamp r) (scanner_version r) (total_repos r)
    (repositories r ++ [repo_data])
    (match classifications r !! classification with
     | Some names =>
         <[classification := names ++ [d_name repo_data]]> (classifications r)
     | None => classifications r
     end).

(** The names among [entries] that were given the label [l]. *)
Definition names_classified (l : string) (entries : list RepoData) : list string :=
  map d_name (filter (fun repo_data => d_classification repo_data = l) entries).

(** What one turn of the loop prints. *)
Definition lines_for (now : Z) (count : Z) (repo : Repository) : list Line :=
  LProgress (count + 1) (repo_full_name repo) ::
  match build_repo_data now repo with
  | Ok repo_data => [LClassified (d_classification repo_data)]
  | Raise e => [LErrorScanning (repo_name repo) e; LError]
  end.

Fixpoint loop_lines (now : Z) (repos : list Repository) (count : Z) : list Line :=
  match repos with
  | [] => []
  | repo :: rest => lines_for now count repo ++ loop_lines now rest (count + 1)
  end.

Definition summary_lines (r : ScanResults) (ls : list string) : list Line :=
  omap (fun l => LSummary l ∘ length <$> classifications r !! l) ls.

Definition with_total (count : Z) (r : ScanResults) : ScanResults :=
  mkScanResults (scan_timestamp r) (scanner_version r) count
    (repositories r) (classifications r).

(** [self.scan_results] when [scan_all_repositories] returns. *)
Definition final_results (now : Z) (max_repos : option Z)
    (repos : list Repository) (r : ScanResults) : ScanResults :=
  let scanned := visited max_repos repos 0 in
  with_total (Z.of_nat (length scanned))
    (foldl record r (omap (outcome now) scanned)).

End Runs.

Module Summary.
Import PlatformScanner.

(** The dictionary [scan_notion] returns, by the outcome of its [try]
    block (lines 61-74). *)
Definition notion_outcome (notion : Notion) : PlatformResult :=
  match scan_notion_body notion with
  | Ok r => r
  | Raise e =>
      if is_import_error e then Skipped "notion-client not installed"
      else Error (str_exn e)
  end.

(** What [scan_notion] prints after its first line. *)
Definition notion_lines (notion : Notion) : list Line :=
  match scan_notion_body notion with
  | Ok _ => []
  | Raise e => if is_import_error e then [LNotInstalled] else [LErrorScanning e]
  end.

(** A credential that [scan_all_platforms] takes as present. *)
Definition credential_set (environ : gmap string string) (variable : string)
    : Prop :=
  truthy_str (environ !! variable) = true.

End Summary.

(** ** Fixtures *)

Module Fixtures.
Import RepositoryScanner.

Definition day : Z := 86400.

(** A repository created at the epoch, by the fields the scanner's
    decisions depend on and the answers to four of its fetches. *)
Definition repo_fetching (name : string) (fork : bool) (size open_issues : Z)
    (commits : result (list Z)) (workflows : list Workflow * option exn)
    (branches tags : result (list string)) : Repository :=
  {| repo_id := 1;
     repo_name := name;
     repo_full_name := "Trancendos/" ++ name;
     repo_description := None;
     repo_html_url := "https://github.com/Trancendos/" ++ name;
     repo_private := false;
     repo_fork := fork;
     repo_archived := false;
     repo_disabled := false;
     repo_created_at := Some 0;
     repo_updated_at := Some 0;
     repo_pushed_at := None;
     repo_size := size;
     repo_default_branch := "main";
     repo_stargazers_count := 0;
     repo_forks_count := 0;
     repo_watchers_count := 0;
     repo_open_issues_count := open_issues;
     repo_has_issues := true;
     repo_has_projects := true;
     repo_has_wiki := true;
     repo_has_pages := false;
     repo_has_downloads := true;
     repo_license := None;
     repo_get_commits := commits;
     repo_get_workflows := workflows;
     repo_get_languages := Ok [("Python", 1024)];
     repo_get_branches := branches;
     repo_get_tags := tags;
     repo_get_topics := Ok [] |}.

(** The same, every fetch but the commit listing succeeding. *)
Definition repo_of (name : string) (fork : bool) (size open_issues : Z)
    (commits : result (list Z)) : Repository :=
  repo_fetching name fork size open_issues commits ([], None) (Ok ["main"]) (Ok []).

Definition not_found : exn := mkExn GithubException "404 Not Found".

(** A forked, empty, long-stale repository that bears a CORE name. *)
Definition core_fork : Repository :=
  repo_of "Trancendos-Core" true 0 0 (Ok [0]).

(** A fork outside the allow-list. *)
Definition plain_fork : Repository :=
  repo_of "some-fork" true 12 0 (Ok [0]).

(** A non-empty repository of the owner's whose last commit is at day 0. *)
Definition quiet_repo : Repository :=
  repo_of "notes" false 12 0 (Ok [0]).

(** The same attributes, but the commit listing is refused. *)
Definition quiet_repo_unlisted : Repository :=
  repo_of "notes" false 12 0 (Raise not_found).

(** Six open issues and a last commit long ago. *)
Definition busy_repo : Repository :=
  repo_of "tracker" false 12 6 (Ok [0]).

Definition forbidden : exn := mkExn GithubException "403 Forbidden".

(** GitHub refuses to list the branches. *)
Definition branchless : Repository :=
  repo_fetching "alpha" false 12 0 (Ok [0]) ([], None) (Raise not_found) (Ok []).

(** GitHub refuses to list the tags. *)
Definition tagless : Repository :=
  repo_fetching "beta" false 12 0 (Ok [0]) ([], None) (Ok ["main"]) (Raise forbidden).


(** The connection drops while the branches are listed: the exception is
    not a [GithubException]. *)
Definition connection_reset : exn :=
  mkExn OtherException "Connection reset by peer".

Definition unreachable : Repository :=
  repo_fetching "delta" false 12 0 (Ok [0]) ([], None)
    (Raise connection_reset) (Ok []).

Definition owner : User := mkUser (Ok "Trancendos") (Ok 3).

(** Notion search responses. *)
Definition response (items : list pyval) : pyval :=
  PDict [("object", PStr "list"); ("results", PList items)].

Definition rich_text (s : string) : pyval :=
  PDict [("type", PStr "text"); ("plain_text", PStr s)].

Definition titled_page : pyval :=
  PDict [("object", PStr "page"); ("id", PStr "p1");
         ("url", PStr "https://www.notion.so/p1");
         ("properties",
          PDict [("title",
                  PDict [("id", PStr "title"); ("type", PStr "title");
                         ("title", PList [rich_text "Roadmap"])])])].

(** A page that was never given a title: its title is the empty list. *)
Definition untitled_page : pyval :=
  PDict [("object", PStr "page"); ("id", PStr "p2");
         ("url", PStr "https://www.notion.so/p2");
         ("properties",
          PDict [("title",
                  PDict [("id", PStr "title"); ("type", PStr "title");
                         ("title", PList [])])])].

(** A page record without a [properties] field. *)
Definition bare_page : pyval :=
  PDict [("object", PStr "page"); ("id", PStr "p3")].

Definition workspace (pages databases : list pyval) : PlatformScanner.Notion :=
  {| PlatformScanner.notion_client_installed := true;
     PlatformScanner.search_pages := Ok (response pages);
     PlatformScanner.search_databases := Ok (response databases) |}.

End Fixtures.

(** ** Further notions over the repository scanner *)

Module Ledger.
Import RepositoryScanner Runs.

(** Every bucket lists, in order, the names of the entries that carry its
    label. *)
Definition buckets_mirror (r : ScanResults) : Prop :=
  forall l, l ∈ labels ->
    classifications r !! l = Some (names_classified l (repositories r)).

(** Every entry carries one of the five labels. *)
Definition entries_labelled (r : ScanResults) : Prop :=
  forall repo_data, repo_data ∈ repositories r -> d_classification repo_data ∈ labels.

(** [len(self.scan_results["classifications"][l])], as the summary prints
    it. *)
Definition bucket_size (r : ScanResults) (l : string) : nat :=
  length (default [] (classifications r !! l)).

(** The scan of the repository ends in an exception. *)
Definition scan_fails (now : Z) (repo : Repository) : bool :=
  negb (is_ok (build_repo_data now repo)).

(** The two invariants together. *)
Definition ledger_ok (r : ScanResults) : Prop :=
  buckets_mirror r /\ entries_labelled r.

End Ledger.

(** ** Further notions over the platform scanner *)

Module Snapshot.
Import PlatformScanner Summary.

(** The exception of a failed subscript, attribute or key lookup. *)
Definition lookup_error (e : exn) : Prop :=
  exn_cls e = KeyError \/ exn_cls e = IndexError
  \/ exn_cls e = AttributeError \/ exn_cls e = TypeError.

(** The entry [scan_all_platforms] writes for a platform, if it writes
    one: the outcome of the platform's scan when its credential is set. *)
Definition written_entry (environ : gmap string string) (notion : Notion)
    (platform : string) : option PlatformResult :=
  if decide (platform = "jira") then
    if truthy_str (environ !! "JIRA_API_TOKEN") then Some NotImplemented else None
  else if decide (platform = "linear") then
    if truthy_str (environ !! "LINEAR_API_KEY") then Some NotImplemented else None
  else if decide (platform = "notion") then
    if truthy_str (environ !! "NOTION_API_KEY") then Some (notion_outcome notion)
    else None
  else None.

End Snapshot.

(** ** The command-line entry points *)

From Stdlib Require Import Ascii.

(** What the scripts ask of the operating system.  [os_makedirs d] is the
    outcome of [os.makedirs(d, exist_ok=True)] and [os_open path] that of
    [open(path, 'w')]; like the answers of the remote services they are
    inputs of the model. *)
Module Os.

Record Os : Type := mkOs {
  os_makedirs : string -> result unit;
  os_open : string -> result unit
}.

(** How a script ends: it returns, [sys.exit(code)] is called, or an
    exception nobody catches reaches the top. *)
Inductive Exit : Type :=
| Returned
| SystemExit (code : Z)
| Uncaught (e : exn).

Definition is_slash (c : Ascii.ascii) : bool := Ascii.eqb c "/"%char.

Fixpoint has_slash (p : string) : bool :=
  match p with
  | EmptyString => false
  | String c rest => is_slash c || has_slash rest
  end.

Fixpoint all_slashes (p : string) : bool :=
  match p with
  | EmptyString => true
  | String c rest => is_slash c && all_slashes rest
  end.

(** [p[:p.rfind('/') + 1]]: the path up to and with its last slash. *)
Fixpoint upto_last_slash (p : string) : string :=
  match p with
  | EmptyString => EmptyString
  | String c rest =>
      if has_slash rest then String c (upto_last_slash rest)
      else if is_slash c then String c EmptyString
      else EmptyString
  end.

(** [head.rstrip('/')]. *)
Fixpoint rstrip_slashes (head : string) : string :=
  match head with
  | EmptyString => EmptyString
  | String c rest =>
      match rstrip_slashes rest with
      | EmptyString => if is_slash c then EmptyString else String c EmptyString
      | stripped => String c stripped
      end
  end.

(** [os.path.dirname] of [posixpath]:
    [head = p[:p.rfind('/') + 1]]
    [if head and head != '/' * len(head): head = head.rstrip('/')]. *)
Definition dirname (p : string) : string :=
  let head := upto_last_slash p in
  if negb (String.eqb head "") && negb (all_slashes head)
  then rstrip_slashes head
  else head.

End Os.

(** [main] and [save_results] of [scan-repositories.py]. *)
Module RepositoryMain.
Import RepositoryScanner Os.

(** The parsed command line (lines 203-223). *)
Record Args : Type := mkArgs {
  args_output : string;
  args_max_repos : option Z;
  args_format : string
}.

Definition default_args : Args :=
  {| args_output := "inventory/repositories.json";
     args_max_repos := None;
     args_format := "json" |}.

(** What the GitHub account answers, and the two clock readings. *)
Record Github : Type := mkGithub {
  gh_user : User;
  gh_repos : Listing
}.

Inductive Console : Type :=
| FromScanner (l : Line)
| TokenNotSet
| SetItWith
| SavedTo (path : string)
| ScanComplete.

(** The files the process wrote, by path, and what it printed.  The text
    [json.dump] writes is kept as the value dumped. *)
Record Process : Type := mkProcess {
  written : gmap string ScanResults;
  console : list Console
}.

Definition M (A : Type) : Type := Py.M Process A.

Definition print (l : Console) : M unit :=
  fun p => (Ok tt, mkProcess (written p) (console p ++ [l])).

Definition dump (path : string) (r : ScanResults) : M unit :=
  fun p => (Ok tt, mkProcess (<[path := r]> (written p)) (console p)).

Local Open Scope scan_scope.

(** Lines 192-199; [r] is [self.scan_results]. *)
Definition save_results (os : Os) (r : ScanResults) (output_path : string) : M unit :=
  call (os_makedirs os (dirname output_path)) ;;;
  call (os_open os output_path) ;;;
  dump output_path r ;;;
  print (SavedTo output_path).

(** Lines 202-237.  [utcnow] is the clock reading when the scanner is
    built and [now] the one during the scan. *)
Definition main (environ : gmap string string) (args : Args) (github : Github)
    (utcnow now : Z) (os : Os) : Exit * Process :=
  let github_token := environ !! "GITHUB_TOKEN" in
  if negb (truthy_str github_token) then
    (SystemExit 1, mkProcess ∅ [TokenNotSet; SetItWith])
  else
    let scanner := init utcnow in
    match scan_all_repositories (gh_user github) now (args_max_repos args)
            (gh_repos github) scanner with
    | (Raise e, scanner') =>
        (Uncaught e, mkProcess ∅ (map FromScanner (stdout scanner')))
    | (Ok results, scanner') =>
        match (save_results os (scan_results scanner') (args_output args) ;;;
               print ScanComplete)
                (mkProcess ∅ (map FromScanner (stdout scanner'))) with
        | (Ok _, p) => (Returned, p)
        | (Raise e, p) => (Uncaught e, p)
        end
    end.

End RepositoryMain.

(** [main] and [save_results] of [scan-platforms.py]. *)
Module PlatformMain.
Import PlatformScanner Os.

Inductive Console : Type :=
| FromScanner (l : Line)
| SavedTo (path : string)
| ScanComplete.

Record Process : Type := mkProcess {
  written : gmap string ScanResults;
  console : list Console
}.

Definition M (A : Type) : Type := Py.M Process A.

Definition print (l : Console) : M unit :=
  fun p => (Ok tt, mkProcess (written p) (console p ++ [l])).

Definition dump (path : string) (r : ScanResults) : M unit :=
  fun p => (Ok tt, mkProcess (<[path := r]> (written p)) (console p)).

Local Open Scope scan_scope.

(** Lines 117-124. *)
Definition save_results (os : Os) (r : ScanResults) (output_path : string) : M unit :=
  call (os_makedirs os (dirname output_path)) ;;;
  call (os_open os output_path) ;;;
  dump output_path r ;;;
  print (SavedTo output_path).


(** Lines 127-144. *)
Definition main (environ : gmap string string) (output : string)
    (notion : Notion) (utcnow : Z) (os : Os) : Exit * Process :=
  let scanner := init utcnow in
  match scan_all_platforms environ notion scanner with
  | (Raise e, scanner') =>
      (Uncaught e, mkProcess ∅ (map FromScanner (stdout scanner')))
  | (Ok results, scanner') =>
      match (save_results os (scan_results scanner') output ;;;
             print ScanComplete)
              (mkProcess ∅ (map FromScanner (stdout scanner'))) with
      | (Ok _, p) => (Returned, p)
      | (Raise e, p) => (Uncaught e, p)
      end
  end.

End PlatformMain.

Module OsFixtures.
Import Os.

(** A file system that grants every request but the creation of a
    directory with the empty name, which [os.makedirs] refuses. *)
Definition no_such_directory : exn :=
  mkExn OtherException "[Errno 2] No such file or directory: ''".

Definition posix : Os :=
  {| os_makedirs := fun d =>
       if String.eqb d "" then Raise no_such_directory else Ok tt;
     os_open := fun _ => Ok tt |}.

End OsFixtures.

(** ** Properties of [classify_repository] *)

Section Classification.
Import RepositoryScanner Policy Fixtures.

(** Membership of a concrete name in the allow-list, by evaluation. *)
Ltac allow_listed :=
  apply (bool_decide_eq_true_1 _); vm_compute; reflexivity.
Ltac not_allow_listed :=
  apply (bool_decide_eq_false_1 _); vm_compute; reflexivity.

Lemma classify_core now repo :
  repo_name repo ∈ core_repos -> classify_repository now repo = "CORE".
Proof.
  intros Hin. unfold classify_repository.
  rewrite (bool_decide_eq_true_2 _ Hin). reflexivity.
Qed.

Lemma classify_not_core now repo :
  repo_name repo ∉ core_repos ->
  classify_repository now repo =
    let days := days_since_commit now repo in
    if is_active days repo then "ACTIVE"
    else if is_archive days repo then "ARCHIVE"
    else if is_deprecate repo then "DEPRECATE"
    else "CONSOLIDATE".
Proof.
  intros Hout. unfold classify_repository.
  rewrite (bool_decide_eq_false_2 _ Hout). reflexivity.
Qed.

Lemma classify_in_labels now repo : classify_repository now repo ∈ labels.
Proof.
  unfold classify_repository, labels.
  repeat match goal with |- context [if ?b then _ else _] => destruct b end;
    set_solver.
Qed.

Lemma classify_active_iff now repo :
  classify_repository now repo = "ACTIVE" <->
  ((repo_name repo ∉ core_repos) /\
   (days_since_commit now repo < 30 \/ repo_open_issues_count repo > 5)).
Proof.
  destruct (decide (repo_name repo ∈ core_repos)) as [Hin | Hout].
  - rewrite (classify_core now repo Hin). split; [discriminate | tauto].
  - rewrite (classify_not_core now repo Hout). cbn zeta.
    unfold is_active, is_archive, is_deprecate.
    destruct (Z.ltb_spec (days_since_commit now repo) 30);
      destruct (Z.gtb_spec (repo_open_issues_count repo) 5); cbn [orb].
    1-3: split; [intros _; split; [assumption | lia] | reflexivity].
    split; [| intros [_ [? | ?]]; lia].
    repeat match goal with |- context [if ?b then _ else _] => destruct b end;
      discriminate.
Qed.

(** C1. The policy tries its rules in the fixed order CORE allow-list,
    ACTIVE (recent commit or more than five open issues), ARCHIVE (stale
    and not empty), DEPRECATE (fork or zero size), else CONSOLIDATE, and
    returns the label of the first rule that matches.  In particular an
    allow-listed name is CORE whatever the other fields are, and a fork
    outside the allow-list whose last commit is 5 days old is ACTIVE. *)
Theorem classify_first_match_wins (now : Z) (repo : Repository) :
  first_fired repo policy_default
    (policy_rules (days_since_commit now repo))
    (classify_repository now repo)
  /\ (repo_name repo ∈ core_repos -> classify_repository now repo = "CORE")
  /\ (repo_name repo ∉ core_repos ->
      repo_fork repo = true ->
      days_since_commit now repo = 5 ->
      classify_repository now repo = "ACTIVE").
Proof.
  split; [| split].
  - unfold policy_rules, policy_default.
    destruct (decide (repo_name repo ∈ core_repos)) as [Hin | Hout].
    + rewrite (classify_core now repo Hin).
      apply fired_here. unfold in_allow_list. by apply bool_decide_eq_true_2.
    + rewrite (classify_not_core now repo Hout). cbn zeta.
      apply fired_later.
      { unfold in_allow_list. by apply bool_decide_eq_false_2. }
      destruct (is_active _ repo) eqn:Hactive; [by apply fired_here |].
      apply fired_later; [assumption |].
      destruct (is_archive _ repo) eqn:Harchive; [by apply fired_here |].
      apply fired_later; [assumption |].
      destruct (is_deprecate repo) eqn:Hdeprecate; [by apply fired_here |].
      apply fired_later; [assumption |]. apply fired_default.
  - apply classify_core.
  - intros Hout _ Hdays. apply classify_active_iff. split; [assumption | lia].
Qed.

Lemma classify_first_match_wins_witness :
  classify_repository (400 * day) core_fork = "CORE"
  /\ classify_repository (5 * day) plain_fork = "ACTIVE".
Proof.
  split.
  - apply (classify_first_match_wins (400 * day) core_fork).
    allow_listed.
  - apply (classify_first_match_wins (5 * day) plain_fork).
    + not_allow_listed.
    + reflexivity.
    + reflexivity.
Defined.

(** C2 (counterexample).  The label is not a function of the repository
    record alone: the same record is ACTIVE on day 29 and CONSOLIDATE on
    day 31, and on day 29 it is ARCHIVE when the commit listing is
    refused. *)
Lemma classify_reads_clock_and_listing :
  classify_repository (29 * day) quiet_repo = "ACTIVE"
  /\ classify_repository (31 * day) quiet_repo = "CONSOLIDATE"
  /\ classify_repository (29 * day) quiet_repo_unlisted = "ARCHIVE"
  /\ quiet_repo_unlisted = with_commits (Raise not_found) quiet_repo
  /\ ~ label_fixed_by_record.
Proof.
  repeat split; try reflexivity.
  intros Hfixed.
  specialize (Hfixed (29 * day) (31 * day) (Ok [0]) (Ok [0]) quiet_repo).
  vm_compute in Hfixed. discriminate Hfixed.
Qed.

(** C2 (amended).  The label is a deterministic function of five values:
    the name, the open-issue count, the size, the fork flag, and the
    commit age that [classify_repository] derives from the commit listing
    and the clock.  Two calls that agree on them return the same label;
    the commit age is the same whenever the clock and the listing are. *)
Theorem classify_determined_by_metrics (now1 now2 : Z) (r1 r2 : Repository) :
  repo_name r1 = repo_name r2 ->
  repo_open_issues_count r1 = repo_open_issues_count r2 ->
  repo_size r1 = repo_size r2 ->
  repo_fork r1 = repo_fork r2 ->
  (days_since_commit now1 r1 = days_since_commit now2 r2
   \/ (now1 = now2 /\ repo_get_commits r1 = repo_get_commits r2)) ->
  classify_repository now1 r1 = classify_repository now2 r2.
Proof.
  intros Hname Hissues Hsize Hfork Hdays.
  assert (days_since_commit now1 r1 = days_since_commit now2 r2) as Hage.
  { destruct Hdays as [? | [-> Hcommits]]; [assumption |].
    unfold days_since_commit. by rewrite Hcommits. }
  unfold classify_repository.
  by rewrite Hname, Hissues, Hsize, Hfork, Hage.
Qed.

Lemma classify_determined_by_metrics_witness :
  classify_repository (29 * day) quiet_repo =
  classify_repository (29 * day + 3600) (with_commits (Ok [3600; 0]) quiet_repo).
Proof.
  apply (classify_determined_by_metrics (29 * day) (29 * day + 3600)
           quiet_repo (with_commits (Ok [3600; 0]) quiet_repo));
    try reflexivity.
  left. vm_compute. reflexivity.
Defined.

(** C7. When no commit date can be had, the commit age is the sentinel
    999, which lies beyond both thresholds: the repository is classified
    as any repository staler than the archive threshold would be, and it
    is ACTIVE only through the open-issue count. *)
Theorem unknown_activity_is_stale (now : Z) (repo : Repository) :
  activity_unknown repo ->
  days_since_commit now repo = 999
  /\ (classify_repository now repo = "ACTIVE" <->
      ((repo_name repo ∉ core_repos) /\ repo_open_issues_count repo > 5))
  /\ (forall now' commits,
        180 < days_since_commit now' (with_commits commits repo) ->
        classify_repository now' (with_commits commits repo) =
        classify_repository now repo).
Proof.
  intros Hunknown.
  assert (days_since_commit now repo = 999) as Hage.
  { unfold activity_unknown in Hunknown. unfold days_since_commit.
    destruct (repo_get_commits repo) as [[| ? ?] | ?]; [reflexivity | tauto | reflexivity]. }
  split; [assumption | split].
  - rewrite classify_active_iff, Hage. intuition lia.
  - intros now' commits Hstale.
    unfold classify_repository. rewrite Hage. cbn [with_commits repo_name
      repo_open_issues_count repo_size repo_fork].
    destruct (bool_decide (repo_name repo ∈ core_repos)); [reflexivity |].
    set (age := days_since_commit now' (with_commits commits repo)) in *.
    replace (age <? 30) with false by (symmetry; apply Z.ltb_ge; lia).
    replace (age >? 180) with true by (symmetry; apply Z.gtb_gt; lia).
    reflexivity.
Qed.

Lemma unknown_activity_is_stale_witness :
  days_since_commit (29 * day) quiet_repo_unlisted = 999.
Proof.
  apply (unknown_activity_is_stale (29 * day) quiet_repo_unlisted).
  vm_compute. exact I.
Defined.

(** C8. The ACTIVE thresholds are strict.  Outside the allow-list, a
    commit age of exactly 30 days does not make a repository ACTIVE (29
    does), and 6 open issues do (5 do not, unless the commit is
    recent). *)
Theorem active_thresholds_strict (now : Z) (repo : Repository) :
  repo_name repo ∉ core_repos ->
  (days_since_commit now repo = 30 ->
   repo_open_issues_count repo <= 5 ->
   classify_repository now repo <> "ACTIVE")
  /\ (days_since_commit now repo = 29 ->
      classify_repository now repo = "ACTIVE")
  /\ (repo_open_issues_count repo = 6 ->
      classify_repository now repo = "ACTIVE")
  /\ (repo_open_issues_count repo = 5 ->
      30 <= days_since_commit now repo ->
      classify_repository now repo <> "ACTIVE").
Proof.
  intros Hout. repeat split.
  - intros Hage Hissues Hactive.
    apply classify_active_iff in Hactive. lia.
  - intros Hage. apply classify_active_iff. split; [assumption | lia].
  - intros Hissues. apply classify_active_iff. split; [assumption | lia].
  - intros Hissues Hage Hactive.
    apply classify_active_iff in Hactive. lia.
Qed.

Lemma active_thresholds_strict_witness :
  classify_repository (30 * day) quiet_repo <> "ACTIVE"
  /\ classify_repository (400 * day) busy_repo = "ACTIVE".
Proof.
  split.
  - destruct (active_thresholds_strict (30 * day) quiet_repo) as (Hat30 & _).
    + not_allow_listed.
    + apply Hat30; [reflexivity | vm_compute; discriminate].
  - destruct (active_thresholds_strict (400 * day) busy_repo) as (_ & _ & Hsix & _).
    + not_allow_listed.
    + apply Hsix. reflexivity.
Defined.

End Classification.

(** ** Properties of [scan_notion] and [scan_all_platforms] *)

Section Platforms.
Import PlatformScanner Summary Fixtures.

Lemma rmap_length {A B} (f : A -> result B) (xs : list A) (ys : list B) :
  rmap f xs = Ok ys -> length ys = length xs.
Proof.
  revert ys. induction xs as [| x rest IH]; intros ys Hmap; cbn in Hmap.
  - by inversion Hmap.
  - destruct (f x) as [y |]; [| discriminate]. cbn in Hmap.
    destruct (rmap f rest) as [ys' |]; [| discriminate]. cbn in Hmap.
    inversion Hmap; subst. cbn. f_equal. by apply IH.
Qed.

(** [scan_notion] always returns: what it returns and prints, by the
    outcome of its [try] block; it leaves [scan_results] alone. *)
Lemma scan_notion_run notion api_key st :
  scan_notion notion api_key st =
    (Ok (notion_outcome notion),
     mkState (scan_results st)
       (stdout st ++ LScanning "Notion" :: notion_lines notion)).
Proof.
  unfold scan_notion, notion_outcome, notion_lines, bind, try_except, call,
    print, ret.
  cbn. destruct (scan_notion_body notion) as [r | e]; cbn.
  - done.
  - destruct (is_import_error e); cbn; by rewrite <- app_assoc.
Qed.

Lemma scan_notion_returns notion api_key st :
  fst (scan_notion notion api_key st) = Ok (notion_outcome notion)
  /\ scan_results (snd (scan_notion notion api_key st)) = scan_results st.
Proof. by rewrite scan_notion_run. Qed.

(** C3 (evaluation at the failing input).  A page record without
    [properties] gets the default title, but a page whose title is the
    empty list makes the extraction raise [IndexError], and the Notion
    scan that meets it returns an error result without any page. *)
Theorem extract_page_empty_title_raises :
  extract_page bare_page
    = Ok (mkPage (PStr "p3") (PStr "Untitled") PNone PNone PNone)
  /\ extract_page untitled_page
    = Raise (mkExn IndexError "list index out of range")
  /\ fst (scan_notion (workspace [titled_page; untitled_page] []) "secret" (init 0))
    = Ok (Error "list index out of range").
Proof. repeat split; reflexivity. Qed.

(** C10. A successful Notion scan returns at most 50 pages, the first 50
    extracted, while [total_pages] counts every page enumerated; the
    databases are returned whole.  With more than 50 pages enumerated the
    [pages] list is strictly shorter than [total_pages]. *)
Theorem notion_pages_capped (notion : Notion) (api_key : string)
    (st st' : State) (r : PlatformResult) :
  scan_notion notion api_key st = (Ok r, st') ->
  status r = "success" ->
  exists page_response page_items all_pages db_response db_items,
    search_pages notion = Ok page_response
    /\ rbind (get_default page_response "results" (PList [])) iter = Ok page_items
    /\ rmap extract_page page_items = Ok all_pages
    /\ search_databases notion = Ok db_response
    /\ rbind (get_default db_response "results" (PList [])) iter = Ok db_items
    /\ rmap extract_database db_items = Ok (databases_of r)
    /\ pages_of r = firstn 50 all_pages
    /\ (length (pages_of r) <= 50)%nat
    /\ total_pages_of r = length page_items
    /\ length (databases_of r) = length db_items
    /\ ((50 < length page_items)%nat ->
        (length (pages_of r) < total_pages_of r)%nat).
Proof.
  intros Hscan Hstatus.
  pose proof (scan_notion_returns notion api_key st) as [Hret _].
  rewrite Hscan in Hret. cbn in Hret.
  assert (r = notion_outcome notion) as -> by congruence. clear Hret.
  unfold notion_outcome in *.
  destruct (scan_notion_body notion) as [r |e] eqn:Hbody.
  2: { destruct (is_import_error e); cbn in Hstatus; discriminate. }
  unfold scan_notion_body, extract_all in Hbody.
  destruct (import_client notion); [| discriminate]. cbn [rbind] in Hbody.
  destruct (search_pages notion) as [page_response |]; [| discriminate].
  cbn [rbind] in Hbody.
  destruct (get_default page_response "results" (PList [])) as [page_list |] eqn:Hget;
    [| discriminate].
  cbn [rbind] in Hbody.
  destruct (iter page_list) as [page_items |] eqn:Hiter; [| discriminate].
  cbn [rbind] in Hbody.
  destruct (rmap extract_page page_items) as [all_pages |] eqn:Hpages; [| discriminate].
  cbn [rbind] in Hbody.
  destruct (search_databases notion) as [db_response |]; [| discriminate].
  cbn [rbind] in Hbody.
  destruct (get_default db_response "results" (PList [])) as [db_list |] eqn:Hdbget;
    [| discriminate].
  cbn [rbind] in Hbody.
  destruct (iter db_list) as [db_items |] eqn:Hdbiter; [| discriminate].
  cbn [rbind] in Hbody.
  destruct (rmap extract_database db_items) as [all_dbs |] eqn:Hdbs; [| discriminate].
  cbn [rbind] in Hbody. inversion Hbody; subst r. clear Hbody.
  clear Hstatus Hscan.
  exists page_response, page_items, all_pages, db_response, db_items.
  cbn [pages_of total_pages_of databases_of].
  pose proof (rmap_length _ _ _ Hpages) as Hlen.
  pose proof (rmap_length _ _ _ Hdbs) as Hdblen.
  repeat split; try done.
  - by rewrite Hget.
  - by rewrite Hdbget.
  - rewrite length_take. lia.
  - intros Hmany. rewrite length_take. lia.
Qed.

Lemma notion_pages_capped_witness :
  exists r,
    fst (scan_notion (workspace (repeat titled_page 51) []) "secret" (init 0)) = Ok r
    /\ length (pages_of r) = 50%nat
    /\ total_pages_of r = 51%nat.
Proof.
  destruct (scan_notion (workspace (repeat titled_page 51) []) "secret" (init 0))
    as [res st'] eqn:Hscan.
  assert (exists r, res = Ok r /\ status r = "success") as (r & -> & Hstatus).
  { vm_compute in Hscan. inversion Hscan. eexists. split; reflexivity. }
  destruct (notion_pages_capped _ _ _ _ _ Hscan Hstatus)
    as (pr & items & all_pages & dr & ditems & Hsearch & Hitems & Hall & _ & _ & _
        & Hpages & _ & Htotal & _).
  exists r. split; [reflexivity |].
  cbn in Hsearch. inversion Hsearch; subst pr. clear Hsearch.
  vm_compute in Hitems. inversion Hitems; subst items. clear Hitems.
  vm_compute in Hall. inversion Hall; subst all_pages. clear Hall.
  rewrite Hpages, Htotal. split; reflexivity.
Defined.

(** C6 (counterexample).  With no credential in the environment the
    snapshot has no entry for any platform: nothing records the skips. *)
Lemma no_credential_no_entry :
  let run := scan_all_platforms ∅ (workspace [] []) (init 0) in
  fst run = Ok (scan_results (snd run))
  /\ platforms (scan_results (snd run)) = ∅
  /\ platforms (scan_results (snd run)) !! "notion" = None.
Proof. repeat split; reflexivity. Qed.

(** C6 (amended).  A platform has an entry in the snapshot exactly when
    its credential is set and not empty.  A platform without credential
    has no entry; its skip is printed.  An entry for Notion is the
    dictionary [scan_notion] returned, whose status tells an errored scan
    from one that found nothing. *)
Theorem entry_iff_credential_set (environ : gmap string string)
    (notion : Notion) (utcnow : Z) :
  let run := scan_all_platforms environ notion (init utcnow) in
  let snapshot := scan_results (snd run) in
  fst run = Ok snapshot
  /\ (is_Some (platforms snapshot !! "notion")
      <-> credential_set environ "NOTION_API_KEY")
  /\ (is_Some (platforms snapshot !! "linear")
      <-> credential_set environ "LINEAR_API_KEY")
  /\ (is_Some (platforms snapshot !! "jira")
      <-> credential_set environ "JIRA_API_TOKEN")
  /\ (~ credential_set environ "NOTION_API_KEY" ->
      LNotSet "NOTION_API_KEY" "Notion" ∈ stdout (snd run))
  /\ (~ credential_set environ "LINEAR_API_KEY" ->
      LNotSet "LINEAR_API_KEY" "Linear" ∈ stdout (snd run))
  /\ (~ credential_set environ "JIRA_API_TOKEN" ->
      LNotSet "JIRA_API_TOKEN" "Jira" ∈ stdout (snd run))
  /\ (credential_set environ "NOTION_API_KEY" ->
      platforms snapshot !! "notion" = Some (notion_outcome notion)).
Proof.
  unfold credential_set, scan_all_platforms, scan_if_configured.
  unfold bind at 1. cbn [print].
  destruct (truthy_str (environ !! "NOTION_API_KEY")) eqn:Hnotion;
    destruct (truthy_str (environ !! "LINEAR_API_KEY")) eqn:Hlinear;
    destruct (truthy_str (environ !! "JIRA_API_TOKEN")) eqn:Hjira;
    unfold bind, scan_linear, scan_jira, set_platform, print, get_results, ret;
    rewrite ?scan_notion_run; cbn;
    repeat split; intros; simplify_map_eq;
    try done; try (by eexists); try (by apply is_Some_None in H);
    set_solver.
Qed.

Lemma entry_iff_credential_set_witness :
  platforms (scan_results (snd (scan_all_platforms
               {["NOTION_API_KEY" := "secret"]} (workspace [] []) (init 0))))
    !! "notion" = Some (Success 0 0 [] []).
Proof.
  apply (entry_iff_credential_set {["NOTION_API_KEY" := "secret"]}
           (workspace [] []) 0).
  vm_compute. reflexivity.
Defined.

End Platforms.

(** ** Properties of [scan_repository] and [scan_all_repositories] *)

Section Repositories.
Import RepositoryScanner Runs Fixtures.

Lemma build_repo_data_ok now repo repo_data :
  build_repo_data now repo = Ok repo_data ->
  d_classification repo_data = classify_repository now repo
  /\ d_name repo_data = repo_name repo
  /\ d_workflows repo_data = fst (repo_get_workflows repo).
Proof.
  unfold build_repo_data.
  destruct (repo_get_languages repo); [| discriminate].
  destruct (repo_get_branches repo); [| discriminate].
  destruct (repo_get_tags repo); [| discriminate].
  destruct (repo_created_at repo); [| discriminate].
  destruct (repo_updated_at repo); [| discriminate].
  destruct (repo_get_topics repo); [| discriminate].
  cbn. intros Hbuilt. inversion Hbuilt. by subst.
Qed.


Lemma outcome_Some now repo repo_data :
  outcome now repo = Some repo_data <-> build_repo_data now repo = Ok repo_data.
Proof.
  unfold outcome. destruct (build_repo_data now repo); split; congruence.
Qed.

Lemma record_buckets_ok r repo_data : buckets_ok r -> buckets_ok (record r repo_data).
Proof.
  intros Hok l Hl. specialize (Hok l Hl). unfold record. cbn.
  destruct (classifications r !! d_classification repo_data); [| assumption].
  rewrite lookup_insert. case_decide; [by eexists | assumption].
Qed.

Lemma init_buckets_ok utcnow : buckets_ok (scan_results (init utcnow)).
Proof.
  intros l Hl. unfold labels in Hl. cbn.
  repeat (apply elem_of_cons in Hl as [-> | Hl]; [by eexists |]).
  by apply elem_of_nil in Hl.
Qed.

(** One call of [scan_repository], when nothing but a [GithubException]
    is raised: it returns the entry or [None], records the entry, and
    prints the error. *)
Lemma scan_repository_run now repo st :
  buckets_ok (scan_results st) ->
  github_only now repo ->
  scan_repository now repo st =
    (Ok (outcome now repo),
     mkState
       (match outcome now repo with
        | Some repo_data => record (scan_results st) repo_data
        | None => scan_results st
        end)
       (stdout st ++
        match build_repo_data now repo with
        | Ok _ => []
        | Raise e => [LErrorScanning (repo_name repo) e]
        end)).
Proof.
  intros Hok Hgithub. unfold github_only in Hgithub.
  unfold scan_repository, scan_repository_body, outcome, try_except, bind, call.
  destruct (build_repo_data now repo) as [repo_data | e] eqn:Hbuilt.
  - apply build_repo_data_ok in Hbuilt as (Hclass & Hname & _).
    destruct (Hok (d_classification repo_data)) as [names Hnames].
    { rewrite Hclass. apply classify_in_labels. }
    unfold append_repository, append_classification, modify_results,
      get_results, bind, ret, record. cbn.
    rewrite Hnames. cbn. rewrite Hname, app_nil_r. reflexivity.
  - rewrite Hgithub. unfold print, ret. cbn. reflexivity.
Qed.

Lemma scan_loop_run now max_repos repos failure : forall count st,
  buckets_ok (scan_results st) ->
  Forall (github_only now) repos ->
  scan_loop now max_repos repos failure count st =
    (match loop_failure max_repos repos failure count with
     | Some e => Raise e
     | None => Ok (count + Z.of_nat (length (visited max_repos repos count)))
     end,
     mkState
       (foldl record (scan_results st)
          (omap (outcome now) (visited max_repos repos count)))
       (stdout st ++ loop_lines now (visited max_repos repos count) count)).
Proof.
  induction repos as [| repo rest IH]; intros count st Hok Hall.
  - cbn. rewrite Z.add_0_r, app_nil_r.
    destruct failure; unfold throw, ret; by destruct st.
  - cbn [scan_loop visited loop_failure].
    destruct (limit_reached max_repos count).
    { cbn. unfold ret. rewrite Z.add_0_r, app_nil_r. by destruct st. }
    apply Forall_cons in Hall as [Hrepo Hrest].
    unfold bind at 1. cbn [print].
    unfold bind at 1. rewrite scan_repository_run by assumption.
    cbn [scan_results stdout length loop_lines omap list_omap]. unfold lines_for.
    pose proof (eq_refl (outcome now repo)) as Hout. unfold outcome at 2 in Hout.
    destruct (build_repo_data now repo) as [repo_data | e] eqn:Hbuilt;
      rewrite Hout; unfold bind at 1; cbn [print]; rewrite IH; try assumption.
    + cbn [scan_results stdout foldl]. f_equal.
      * destruct (loop_failure max_repos rest failure (count + 1));
          [reflexivity | f_equal; lia].
      * f_equal. rewrite app_nil_r, <- !app_assoc. reflexivity.
    + cbn. by apply record_buckets_ok.
    + cbn [scan_results stdout foldl]. f_equal.
      * destruct (loop_failure max_repos rest failure (count + 1));
          [reflexivity | f_equal; lia].
      * f_equal. rewrite <- !app_assoc. reflexivity.
Qed.

Lemma print_summary_run r ls : forall st,
  print_summary r ls st =
    (Ok tt, mkState (scan_results st) (stdout st ++ summary_lines r ls)).
Proof.
  induction ls as [| l rest IH]; intros st.
  - cbn. unfold ret. rewrite app_nil_r. by destruct st.
  - cbn [print_summary summary_lines omap list_omap].
    destruct (classifications r !! l) as [names |]; cbn [fmap option_fmap option_map].
    + unfold bind, print. rewrite IH. cbn. by rewrite <- app_assoc.
    + apply IH.
Qed.

(** A whole run in closed form, when the reads of the account and the
    listing raise nothing, and nothing but a [GithubException] is raised
    while a repository is scanned. *)
Lemma scan_all_repositories_run user now max_repos repos st login public_repos :
  buckets_ok (scan_results st) ->
  Forall (github_only now) (delivered repos) ->
  user_login user = Ok login ->
  user_public_repos user = Ok public_repos ->
  listing_raises max_repos repos = None ->
  scan_all_repositories user now max_repos repos st =
    let final := final_results now max_repos (delivered repos) (scan_results st) in
    (Ok final,
     mkState final
       (stdout st
        ++ [LScanningFor login; LTotalRepositories public_repos]
        ++ loop_lines now (visited max_repos (delivered repos) 0) 0
        ++ [LSummaryHeader]
        ++ summary_lines final labels)).
Proof.
  intros Hok Hall Hlogin Hpublic Hlisting. unfold scan_all_repositories.
  rewrite Hlogin, Hpublic. unfold listing_raises in Hlisting.
  unfold bind at 1, call at 1.
  unfold bind at 1. cbn [print].
  unfold bind at 1, call at 1.
  unfold bind at 1. cbn [print].
  unfold bind at 1. rewrite scan_loop_run by (cbn; assumption).
  rewrite Hlisting.
  cbn [scan_results stdout].
  unfold bind at 1, set_total_repos, modify_results. cbn [scan_results stdout].
  unfold bind at 1. cbn [print scan_results stdout].
  unfold bind at 1, get_results at 1. cbn [scan_results stdout].
  unfold bind at 1. rewrite print_summary_run. cbn [scan_results stdout].
  unfold get_results, final_results, with_total. cbn [scan_results].
  rewrite Z.add_0_l. cbn zeta. f_equal. f_equal.
  rewrite <- !app_assoc. reflexivity.
Qed.

Lemma foldl_record_repositories entries : forall r,
  repositories (foldl record r entries) = repositories r ++ entries.
Proof.
  induction entries as [| repo_data rest IH]; intros r; cbn [foldl].
  - by rewrite app_nil_r.
  - rewrite IH. cbn. by rewrite <- app_assoc.
Qed.

Lemma foldl_record_classifications l entries : forall r,
  classifications (foldl record r entries) !! l =
    (fun names => names ++ names_classified l entries) <$> classifications r !! l.
Proof.
  unfold names_classified.
  induction entries as [| repo_data rest IH]; intros r; cbn [foldl].
  - cbn. destruct (classifications r !! l); cbn; [by rewrite app_nil_r | done].
  - rewrite IH. cbn [record classifications]. rewrite filter_cons.
    destruct (classifications r !! d_classification repo_data) as [names |] eqn:Hnames.
    + rewrite lookup_insert.
      destruct (decide (d_classification repo_data = l)) as [<- | Hne].
      * rewrite Hnames. cbn. by rewrite <- app_assoc.
      * reflexivity.
    + destruct (decide (d_classification repo_data = l)) as [<- | Hne].
      * by rewrite Hnames.
      * reflexivity.
Qed.

Lemma foldl_record_fixed entries : forall r,
  total_repos (foldl record r entries) = total_repos r
  /\ scan_timestamp (foldl record r entries) = scan_timestamp r
  /\ scanner_version (foldl record r entries) = scanner_version r.
Proof.
  induction entries as [| repo_data rest IH]; intros r; cbn [foldl]; [done |].
  destruct (IH (record r repo_data)) as (-> & -> & ->). done.
Qed.

(** *** The limit *)

Lemma visited_unlimited repos : forall count, visited None repos count = repos.
Proof.
  induction repos as [| repo rest IH]; intros count; cbn; [done |].
  by rewrite IH.
Qed.

Lemma visited_limited n repos : forall count,
  0 < n -> 0 <= count ->
  visited (Some n) repos count = firstn (Z.to_nat (n - count)) repos.
Proof.
  induction repos as [| repo rest IH]; intros count Hn Hcount; cbn [visited].
  - by rewrite firstn_nil.
  - unfold limit_reached.
    replace (n =? 0) with false by (symmetry; apply Z.eqb_neq; lia).
    cbn [negb andb].
    destruct (Z.geb_spec count n) as [Hge | Hlt].
    + replace (Z.to_nat (n - count)) with O by lia. reflexivity.
    + replace (Z.to_nat (n - count)) with (S (Z.to_nat (n - (count + 1)))) by lia.
      cbn [firstn]. f_equal. apply IH; lia.
Qed.

Lemma scan_loop_zero_limit now repos failure : forall count st,
  scan_loop now (Some 0) repos failure count st =
  scan_loop now None repos failure count st.
Proof.
  induction repos as [| repo rest IH]; intros count st; cbn [scan_loop]; [done |].
  cbn [limit_reached Z.eqb negb andb]. unfold bind, print.
  destruct (scan_repository now repo _) as [[[repo_data |] | e] st']; [| | reflexivity];
    apply IH.
Qed.

Lemma loop_lines_error now repo e repos : forall count,
  repo ∈ repos ->
  build_repo_data now repo = Raise e ->
  LErrorScanning (repo_name repo) e ∈ loop_lines now repos count.
Proof.
  induction repos as [| repo' rest IH]; intros count Hin Hraise.
  - by apply elem_of_nil in Hin.
  - cbn [loop_lines]. apply elem_of_app.
    apply elem_of_cons in Hin as [<- | Hin].
    + left. unfold lines_for. rewrite Hraise. set_solver.
    + right. by apply IH.
Qed.

Lemma loop_failure_complete max_repos repos : forall count,
  loop_failure max_repos repos None count = None.
Proof.
  induction repos as [| repo rest IH]; intros count; cbn; [reflexivity |].
  by destruct (limit_reached max_repos count).
Qed.

Lemma listing_raises_complete max_repos repos :
  listing_raises max_repos (complete repos) = None.
Proof. apply loop_failure_complete. Qed.

(** A run the listing cuts short: the exception leaves the call, the
    entries recorded so far stay, and [total_repos] is not set. *)
Lemma scan_all_repositories_cut user now max_repos repos st login public_repos e :
  buckets_ok (scan_results st) ->
  Forall (github_only now) (delivered repos) ->
  user_login user = Ok login ->
  user_public_repos user = Ok public_repos ->
  listing_raises max_repos repos = Some e ->
  scan_all_repositories user now max_repos repos st =
    (Raise e,
     mkState
       (foldl record (scan_results st)
          (omap (outcome now) (visited max_repos (delivered repos) 0)))
       ((stdout st ++ [LScanningFor login; LTotalRepositories public_repos])
        ++ loop_lines now (visited max_repos (delivered repos) 0) 0)).
Proof.
  intros Hok Hall Hlogin Hpublic Hlisting. unfold scan_all_repositories.
  rewrite Hlogin, Hpublic. unfold listing_raises in Hlisting.
  unfold bind at 1, call at 1.
  unfold bind at 1. cbn [print].
  unfold bind at 1, call at 1.
  unfold bind at 1. cbn [print].
  unfold bind at 1. rewrite scan_loop_run by (cbn; assumption).
  rewrite Hlisting. cbn [scan_results stdout].
  do 2 f_equal. by rewrite <- !app_assoc.
Qed.

(** [self.scan_results] and the outcome of a run, however it ends, when
    nothing but a [GithubException] is raised while a repository is
    scanned. *)
Lemma scan_all_repositories_state user now max_repos repos st :
  buckets_ok (scan_results st) ->
  Forall (github_only now) (delivered repos) ->
  let run := scan_all_repositories user now max_repos repos st in
  let entries :=
    foldl record (scan_results st)
      (omap (outcome now) (scanned user max_repos repos)) in
  ((account_loaded user = true /\ listing_raises max_repos repos = None) ->
   fst run = Ok (scan_results (snd run))
   /\ scan_results (snd run) =
        with_total (Z.of_nat (length (scanned user max_repos repos))) entries)
  /\ (~ (account_loaded user = true /\ listing_raises max_repos repos = None) ->
      is_ok (fst run) = false /\ scan_results (snd run) = entries)
  /\ (forall repo e,
        repo ∈ scanned user max_repos repos ->
        build_repo_data now repo = Raise e ->
        LErrorScanning (repo_name repo) e ∈ stdout (snd run)).
Proof.
  intros Hok Hall. cbn zeta.
  unfold scanned, account_loaded.
  destruct (user_login user) as [login | e1] eqn:Hlogin.
  2: { unfold scan_all_repositories, bind, call. rewrite Hlogin. cbn.
       split; [intros [Hloaded _]; discriminate Hloaded |].
       split; [intros _; split; reflexivity |].
       intros repo e Hin. by apply elem_of_nil in Hin. }
  destruct (user_public_repos user) as [public_repos | e2] eqn:Hpublic.
  2: { unfold scan_all_repositories, bind, call, print.
       rewrite Hlogin, Hpublic. cbn.
       split; [intros [Hloaded _]; discriminate Hloaded |].
       split; [intros _; split; reflexivity |].
       intros repo e Hin. by apply elem_of_nil in Hin. }
  cbn [is_ok andb].
  destruct (listing_raises max_repos repos) as [e |] eqn:Hlisting.
  - rewrite (scan_all_repositories_cut user now max_repos repos st login
               public_repos e) by assumption.
    cbn [fst snd scan_results stdout is_ok].
    split; [intros [_ Hnone]; discriminate Hnone |].
    split; [intros _; split; reflexivity |].
    intros repo e' Hin Hraise. apply elem_of_app. right.
    by apply loop_lines_error.
  - rewrite (scan_all_repositories_run user now max_repos repos st login public_repos)
      by assumption.
    cbn [fst snd scan_results stdout is_ok]. unfold final_results.
    split; [intros _; split; reflexivity |].
    split; [intros Hnot; exfalso; apply Hnot; by split |].
    intros repo e' Hin Hraise.
    rewrite !elem_of_app. right. right. left. by apply loop_lines_error.
Qed.

Lemma scan_all_repositories_entries user now max_repos repos st :
  buckets_ok (scan_results st) ->
  Forall (github_only now) (delivered repos) ->
  let final := scan_results (snd (scan_all_repositories user now max_repos repos st)) in
  let added := omap (outcome now) (scanned user max_repos repos) in
  repositories final = repositories (scan_results st) ++ added
  /\ (forall l,
        classifications final !! l =
        (fun names => names ++ names_classified l added)
          <$> classifications (scan_results st) !! l).
Proof.
  intros Hok Hall. cbn zeta.
  destruct (scan_all_repositories_state user now max_repos repos st Hok Hall)
    as (Hreturns & Hcut & _). cbn zeta in *.
  destruct (account_loaded user) eqn:Hloaded;
    destruct (listing_raises max_repos repos) as [e |] eqn:Hlisting.
  2: { destruct Hreturns as (_ & ->); [by split |]. unfold with_total.
       cbn [repositories classifications].
       split; [apply foldl_record_repositories |].
       intros l. apply foldl_record_classifications. }
  all: destruct Hcut as (_ & ->); [intros [? ?]; discriminate |];
    (split; [apply foldl_record_repositories |]);
    intros l; apply foldl_record_classifications.
Qed.




(** An exception of another class is not caught: it leaves
    [scan_repository] and [scan_all_repositories], after the repositories
    before it were recorded and before [total_repos] is set. *)
Lemma other_exception_aborts_scan :
  let run := scan_all_repositories owner (400 * day) None
               (complete [quiet_repo; unreachable; busy_repo]) (init 0) in
  fst run = Raise connection_reset
  /\ map d_name (repositories (scan_results (snd run))) = ["notes"]
  /\ total_repos (scan_results (snd run)) = 0.
Proof. vm_compute. repeat split; reflexivity. Qed.




(** C9 (evaluation at the failing input).  A limit of 0 is no limit:
    the scan behaves as if none were given, and over two repositories
    it scans both. *)
Theorem zero_limit_scans_everything :
  (forall user now repos st,
      scan_all_repositories user now (Some 0) repos st =
      scan_all_repositories user now None repos st)
  /\ total_repos (scan_results (snd
        (scan_all_repositories owner (400 * day) (Some 0)
           (complete [quiet_repo; busy_repo]) (init 0)))) = 2
  /\ map d_name (repositories (scan_results (snd
        (scan_all_repositories owner (400 * day) (Some 0)
           (complete [quiet_repo; busy_repo]) (init 0))))) = ["notes"; "tracker"].
Proof.
  split; [| split; reflexivity].
  intros user now repos st. unfold scan_all_repositories, bind.
  destruct (call (user_login user) st) as [[login | e] st1]; [| reflexivity].
  destruct (print _ st1) as [[[] | e] st2]; [| reflexivity].
  destruct (call (user_public_repos user) st2) as [[public_repos | e] st3];
    [| reflexivity].
  destruct (print _ st3) as [[[] | e] st4]; [| reflexivity].
  by rewrite scan_loop_zero_limit.
Qed.

Lemma loop_failure_limited n repos failure : forall count,
  0 < n -> 0 <= count ->
  (Z.to_nat (n - count) < length repos)%nat ->
  loop_failure (Some n) repos failure count = None.
Proof.
  induction repos as [| repo rest IH]; intros count Hn Hcount Hshort;
    cbn [length] in Hshort; [lia |].
  cbn [loop_failure]. unfold limit_reached.
  replace (n =? 0) with false by (symmetry; apply Z.eqb_neq; lia).
  cbn [negb andb].
  destruct (Z.geb_spec count n) as [Hge | Hlt]; [reflexivity |].
  apply IH; lia.
Qed.

(** A positive limit [n] is kept: the first [n] repositories are scanned,
    and no more. *)
Lemma positive_limit_respected user now n repos st :
  0 < n ->
  buckets_ok (scan_results st) ->
  Forall (github_only now) (delivered repos) ->
  account_loaded user = true ->
  listing_raises (Some n) repos = None ->
  let final := scan_results (snd (scan_all_repositories user now (Some n) repos st)) in
  total_repos final = Z.of_nat (length (firstn (Z.to_nat n) (delivered repos)))
  /\ total_repos final <= n
  /\ repositories final =
       repositories (scan_results st)
       ++ omap (outcome now) (firstn (Z.to_nat n) (delivered repos)).
Proof.
  intros Hn Hok Hall Hloaded Hlisting. cbn zeta.
  destruct (scan_all_repositories_state user now (Some n) repos st Hok Hall)
    as (Hreturns & _). cbn zeta in Hreturns.
  destruct Hreturns as (_ & ->); [by split |].
  unfold scanned, with_total. rewrite Hloaded. cbn [total_repos repositories].
  rewrite visited_limited by lia. rewrite Z.sub_0_r.
  repeat split.
  - rewrite length_take. lia.
  - apply foldl_record_repositories.
Qed.

(** Without a limit every repository enumerated is scanned. *)
Lemma no_limit_scans_everything user now repos st :
  buckets_ok (scan_results st) ->
  Forall (github_only now) (delivered repos) ->
  account_loaded user = true ->
  failure repos = None ->
  total_repos (scan_results (snd (scan_all_repositories user now None repos st)))
    = Z.of_nat (length (delivered repos)).
Proof.
  intros Hok Hall Hloaded Hends.
  destruct (scan_all_repositories_state user now None repos st Hok Hall)
    as (Hreturns & _). cbn zeta in Hreturns.
  destruct Hreturns as (_ & ->).
  - split; [assumption |]. unfold listing_raises. rewrite Hends.
    apply loop_failure_complete.
  - unfold scanned, with_total. rewrite Hloaded. cbn [total_repos].
    by rewrite visited_unlimited.
Qed.

End Repositories.

(** ** Further properties of [classify_repository] *)

Section ClassificationTable.
Import RepositoryScanner Policy Runs Ledger Fixtures.

Ltac outside_allow_list :=
  apply (bool_decide_eq_false_1 _); vm_compute; reflexivity.

(** The three tests of [classify_repository] below the allow-list, as
    propositions. *)
Lemma classify_tests now repo :
  repo_name repo ∉ core_repos ->
  forall label,
    classify_repository now repo = label <->
    ((label = "ACTIVE"
      /\ (days_since_commit now repo < 30 \/ repo_open_issues_count repo > 5))
     \/ (label = "ARCHIVE"
         /\ 30 <= days_since_commit now repo /\ repo_open_issues_count repo <= 5
         /\ days_since_commit now repo > 180 /\ repo_size repo > 0)
     \/ (label = "DEPRECATE"
         /\ 30 <= days_since_commit now repo /\ repo_open_issues_count repo <= 5
         /\ (days_since_commit now repo <= 180 \/ repo_size repo <= 0)
         /\ (repo_fork repo = true \/ repo_size repo = 0))
     \/ (label = "CONSOLIDATE"
         /\ 30 <= days_since_commit now repo /\ repo_open_issues_count repo <= 5
         /\ (days_since_commit now repo <= 180 \/ repo_size repo <= 0)
         /\ repo_fork repo = false /\ repo_size repo <> 0)).
Proof.
  intros Hout label. unfold classify_repository.
  rewrite (bool_decide_eq_false_2 _ Hout).
  destruct (Z.ltb_spec (days_since_commit now repo) 30);
    destruct (Z.gtb_spec (repo_open_issues_count repo) 5);
    destruct (Z.gtb_spec (days_since_commit now repo) 180);
    destruct (Z.gtb_spec (repo_size repo) 0);
    destruct (Z.eqb_spec (repo_size repo) 0);
    destruct (repo_fork repo); cbn [orb andb];
    (split; [intros <- | intros [(-> & ?) | [(-> & ?) | [(-> & ?) | (-> & ?)]]]]);
    try reflexivity; try (exfalso; intuition (lia || discriminate));
    intuition (lia || discriminate || auto).
Qed.

(** X1. ARCHIVE is the label of exactly the repositories outside the
    allow-list with at most five open issues, a last commit more than 180
    days old (or none that could be read) and a positive size; being a
    fork does not matter. *)
Theorem archive_iff (now : Z) (repo : Repository) :
  classify_repository now repo = "ARCHIVE" <->
  ((repo_name repo ∉ core_repos)
   /\ repo_open_issues_count repo <= 5
   /\ 180 < days_since_commit now repo
   /\ 0 < repo_size repo).
Proof.
  destruct (decide (repo_name repo ∈ core_repos)) as [Hin | Hout].
  - unfold classify_repository.
    rewrite (bool_decide_eq_true_2 _ Hin). split; [discriminate | tauto].
  - rewrite (classify_tests now repo Hout). split.
    + intros [(? & ?) | [(_ & ?) | [(? & ?) | (? & ?)]]]; try discriminate.
      split; [assumption | lia].
    + intros (_ & ? & ? & ?). right. left. split; [reflexivity | lia].
Qed.

Lemma archive_iff_witness :
  classify_repository (400 * day) plain_fork = "ARCHIVE".
Proof.
  apply (archive_iff (400 * day) plain_fork).
  split; [outside_allow_list |].
  repeat split; vm_compute; (reflexivity || discriminate).
Defined.

(** X2. With a size that is not negative, DEPRECATE is the label of
    exactly the repositories outside the allow-list, with at most five
    open issues and a last commit at least 30 days old, that are empty, or
    are forks whose last commit is at most 180 days old.  A fork that is
    not empty leaves DEPRECATE for ARCHIVE once its last commit is older
    than 180 days. *)
Theorem deprecate_iff (now : Z) (repo : Repository) :
  0 <= repo_size repo ->
  (classify_repository now repo = "DEPRECATE" <->
   ((repo_name repo ∉ core_repos)
    /\ repo_open_issues_count repo <= 5
    /\ 30 <= days_since_commit now repo
    /\ (repo_size repo = 0
        \/ (repo_fork repo = true /\ days_since_commit now repo <= 180)))).
Proof.
  intros Hsize.
  destruct (decide (repo_name repo ∈ core_repos)) as [Hin | Hout].
  - unfold classify_repository.
    rewrite (bool_decide_eq_true_2 _ Hin). split; [discriminate | tauto].
  - rewrite (classify_tests now repo Hout). split.
    + intros [(? & ?) | [(? & ?) | [(_ & ?) | (? & ?)]]]; try discriminate.
      split; [assumption |]. intuition lia.
    + intros (_ & ? & ? & Hwhy). right. right. left.
      split; [reflexivity |]. intuition lia.
Qed.

Lemma deprecate_iff_witness :
  classify_repository (100 * day) plain_fork = "DEPRECATE".
Proof.
  apply (deprecate_iff (100 * day) plain_fork).
  - vm_compute. discriminate.
  - split; [outside_allow_list |].
    split; [vm_compute; discriminate |].
    split; [vm_compute; discriminate |].
    right. split; [reflexivity | vm_compute; discriminate].
Defined.

(** X3. With a size that is not negative, CONSOLIDATE is the label of
    exactly the repositories outside the allow-list that are not forks,
    are not empty, have at most five open issues, and whose last commit is
    between 30 and 180 days old. *)
Theorem consolidate_iff (now : Z) (repo : Repository) :
  0 <= repo_size repo ->
  (classify_repository now repo = "CONSOLIDATE" <->
   ((repo_name repo ∉ core_repos)
    /\ repo_open_issues_count repo <= 5
    /\ 30 <= days_since_commit now repo <= 180
    /\ repo_fork repo = false
    /\ 0 < repo_size repo)).
Proof.
  intros Hsize.
  destruct (decide (repo_name repo ∈ core_repos)) as [Hin | Hout].
  - unfold classify_repository.
    rewrite (bool_decide_eq_true_2 _ Hin). split; [discriminate | tauto].
  - rewrite (classify_tests now repo Hout). split.
    + intros [(? & ?) | [(? & ?) | [(? & ?) | (_ & ?)]]]; try discriminate.
      split; [assumption |]. intuition lia.
    + intros (_ & ? & ? & ? & ?). right. right. right.
      split; [reflexivity |]. intuition lia.
Qed.

Lemma consolidate_iff_witness :
  classify_repository (100 * day) quiet_repo = "CONSOLIDATE".
Proof.
  apply (consolidate_iff (100 * day) quiet_repo).
  - vm_compute. discriminate.
  - split; [outside_allow_list |].
    split; [vm_compute; discriminate |].
    split; [split; vm_compute; discriminate |].
    split; [reflexivity | reflexivity].
Defined.

(** X4. The two age tests, on the difference the code computes.  [now] is
    the value [datetime.now()] returns and [latest] the author date of the
    newest commit as the library hands it over, read without an exception.
    The recency test [days < 30] holds exactly when [now - latest] is less
    than 30 times 86400 seconds, and the staleness test [days > 180]
    exactly when it is at least 181 times 86400 seconds: a difference of
    180 days and 23 hours is not yet stale.  The difference is the time
    passed since the commit only where the two values are on one clock. *)
Theorem age_tests_in_seconds (now latest : Z) (older : list Z) (repo : Repository) :
  repo_get_commits repo = Ok (latest :: older) ->
  (days_since_commit now repo < 30 <-> now - latest < 30 * 86400)
  /\ (days_since_commit now repo > 180 <-> 181 * 86400 <= now - latest).
Proof.
  intros Hcommits. unfold days_since_commit, timedelta_days. rewrite Hcommits.
  pose proof (Z.div_mod (now - latest) 86400 ltac:(lia)) as Hdiv.
  pose proof (Z.mod_pos_bound (now - latest) 86400 ltac:(lia)) as Hmod.
  split; split; intros; lia.
Qed.

Lemma age_tests_in_seconds_witness :
  ~ days_since_commit (180 * day + 23 * 3600) quiet_repo > 180.
Proof.
  intros Hstale.
  apply (age_tests_in_seconds (180 * day + 23 * 3600) 0 [] quiet_repo) in Hstale.
  - vm_compute in Hstale. apply Hstale. reflexivity.
  - reflexivity.
Defined.

(** X5. A repository outside the allow-list whose commit dates cannot be
    read and that has at most five open issues is ARCHIVE when its size is
    positive and DEPRECATE when it is empty: the sentinel age never leaves
    it in CONSOLIDATE. *)
Theorem unknown_activity_archive_or_deprecate (now : Z) (repo : Repository) :
  activity_unknown repo ->
  repo_name repo ∉ core_repos ->
  repo_open_issues_count repo <= 5 ->
  (0 < repo_size repo -> classify_repository now repo = "ARCHIVE")
  /\ (repo_size repo = 0 -> classify_repository now repo = "DEPRECATE").
Proof.
  intros Hunknown Hout Hissues.
  assert (days_since_commit now repo = 999) as Hage.
  { unfold activity_unknown in Hunknown. unfold days_since_commit.
    destruct (repo_get_commits repo) as [[| ? ?] | ?]; [reflexivity | tauto | reflexivity]. }
  split; intros Hsize; apply (classify_tests now repo Hout); rewrite Hage.
  - right. left. split; [reflexivity | lia].
  - right. right. left. split; [reflexivity | lia].
Qed.

Lemma unknown_activity_archive_or_deprecate_witness :
  classify_repository (29 * day) quiet_repo_unlisted = "ARCHIVE".
Proof.
  destruct (unknown_activity_archive_or_deprecate (29 * day) quiet_repo_unlisted)
    as (Harchive & _).
  - vm_compute. exact I.
  - outside_allow_list.
  - vm_compute. discriminate.
  - apply Harchive. reflexivity.
Defined.

End ClassificationTable.

(** ** Further properties of [scan_repository] and [scan_all_repositories] *)

Section Ledgers.
Import RepositoryScanner Runs Ledger Fixtures.

(** One call of [scan_repository], whatever is raised. *)
Lemma scan_repository_cases now repo st :
  buckets_ok (scan_results st) ->
  scan_repository now repo st =
    match build_repo_data now repo with
    | Ok repo_data =>
        (Ok (Some repo_data),
         mkState (record (scan_results st) repo_data) (stdout st))
    | Raise e =>
        if is_github e then
          (Ok None,
           mkState (scan_results st)
             (stdout st ++ [LErrorScanning (repo_name repo) e]))
        else (Raise e, st)
    end.
Proof.
  intros Hok.
  unfold scan_repository, scan_repository_body, try_except, bind, call.
  destruct (build_repo_data now repo) as [repo_data | e] eqn:Hbuilt.
  - apply build_repo_data_ok in Hbuilt as (Hclass & Hname & _).
    destruct (Hok (d_classification repo_data)) as [names Hnames].
    { rewrite Hclass. apply classify_in_labels. }
    unfold append_repository, append_classification, modify_results,
      get_results, bind, ret, record. cbn.
    rewrite Hnames. cbn. by rewrite Hname.
  - destruct (is_github e); [| reflexivity].
    unfold print, ret. cbn. reflexivity.
Qed.

(** X6. [scan_repository] records a repository whole or not at all.  When
    it returns an entry, the entry is appended to [repositories] and the
    repository's name to the bucket of its label, and nothing is printed.
    When it returns [None], a [GithubException] was raised, the error is
    printed and [scan_results] is as before.  When it raises, the
    exception is the one a fetch raised, of another class, and the
    scanner's state is as before. *)
Theorem scan_repository_all_or_nothing (now : Z) (repo : Repository) (st : State) :
  buckets_ok (scan_results st) ->
  match scan_repository now repo st with
  | (Ok (Some repo_data), st') =>
      build_repo_data now repo = Ok repo_data
      /\ repositories (scan_results st') =
           repositories (scan_results st) ++ [repo_data]
      /\ (exists names,
            classifications (scan_results st) !! d_classification repo_data
              = Some names
            /\ classifications (scan_results st') =
                 <[d_classification repo_data := names ++ [repo_name repo]]>
                   (classifications (scan_results st)))
      /\ total_repos (scan_results st') = total_repos (scan_results st)
      /\ stdout st' = stdout st
  | (Ok None, st') =>
      scan_results st' = scan_results st
      /\ exists e,
           build_repo_data now repo = Raise e
           /\ is_github e = true
           /\ stdout st' = stdout st ++ [LErrorScanning (repo_name repo) e]
  | (Raise e, st') =>
      st' = st /\ build_repo_data now repo = Raise e /\ is_github e = false
  end.
Proof.
  intros Hok. rewrite scan_repository_cases by assumption.
  destruct (build_repo_data now repo) as [repo_data | e] eqn:Hbuilt.
  - apply build_repo_data_ok in Hbuilt as (Hclass & Hname & _).
    destruct (Hok (d_classification repo_data)) as [names Hnames].
    { rewrite Hclass. apply classify_in_labels. }
    cbn. rewrite Hnames, Hname. repeat split; try reflexivity.
    by exists names.
  - destruct (is_github e) eqn:Hgithub; cbn.
    + split; [reflexivity |]. by exists e.
    + done.
Qed.

Lemma scan_repository_all_or_nothing_witness :
  fst (scan_repository (400 * day) unreachable (init 0)) = Raise connection_reset
  /\ snd (scan_repository (400 * day) unreachable (init 0)) = init 0.
Proof.
  pose proof (scan_repository_all_or_nothing (400 * day) unreachable (init 0)
                (init_buckets_ok 0)) as Hcases.
  destruct (scan_repository (400 * day) unreachable (init 0))
    as [[[repo_data |] | e] st'] eqn:Hscan.
  - destruct Hcases as (Hbuilt & _). vm_compute in Hbuilt. discriminate Hbuilt.
  - destruct Hcases as (_ & e & Hbuilt & Hgithub & _).
    vm_compute in Hbuilt. inversion Hbuilt; subst e. discriminate Hgithub.
  - destruct Hcases as (-> & Hbuilt & _).
    vm_compute in Hbuilt. inversion Hbuilt; subst e. split; reflexivity.
Defined.

End Ledgers.

Section LedgerInvariant.
Import RepositoryScanner Runs Ledger Fixtures.

Lemma names_classified_snoc l entries repo_data :
  names_classified l (entries ++ [repo_data]) =
    names_classified l entries
    ++ (if decide (d_classification repo_data = l) then [d_name repo_data] else []).
Proof.
  unfold names_classified. rewrite filter_app, map_app. f_equal.
  rewrite filter_cons, filter_nil. by case_decide.
Qed.

Lemma buckets_mirror_ok r : buckets_mirror r -> buckets_ok r.
Proof. intros Hmirror l Hl. rewrite (Hmirror l Hl). by eexists. Qed.

Lemma record_ledger_ok r repo_data :
  ledger_ok r -> d_classification repo_data ∈ labels -> ledger_ok (record r repo_data).
Proof.
  intros [Hmirror Hlabelled] Hlabel. split.
  - intros l Hl. unfold record. cbn [classifications repositories].
    rewrite (Hmirror _ Hlabel), names_classified_snoc, lookup_insert.
    destruct (decide (d_classification repo_data = l)) as [<- | Hne].
    + reflexivity.
    + rewrite (Hmirror l Hl). by rewrite app_nil_r.
  - intros entry Hentry. unfold record in Hentry. cbn [repositories] in Hentry.
    apply elem_of_app in Hentry as [Hentry | Hentry]; [by apply Hlabelled |].
    apply list_elem_of_singleton in Hentry. by subst.
Qed.

Lemma with_total_ledger_ok count r : ledger_ok r -> ledger_ok (with_total count r).
Proof. intros [Hmirror Hlabelled]. by split. Qed.

Lemma init_ledger_ok utcnow : ledger_ok (scan_results (init utcnow)).
Proof.
  split.
  - intros l Hl. unfold labels in Hl. cbn.
    repeat (apply elem_of_cons in Hl as [-> | Hl]; [reflexivity |]).
    by apply elem_of_nil in Hl.
  - intros entry Hentry. cbn in Hentry. by apply elem_of_nil in Hentry.
Qed.

Lemma scan_repository_ledger now repo st :
  ledger_ok (scan_results st) ->
  ledger_ok (scan_results (snd (scan_repository now repo st))).
Proof.
  intros Hledger.
  rewrite scan_repository_cases by (apply buckets_mirror_ok, Hledger).
  destruct (build_repo_data now repo) as [repo_data | e] eqn:Hbuilt.
  - cbn. apply record_ledger_ok; [assumption |].
    apply build_repo_data_ok in Hbuilt as (-> & _). apply classify_in_labels.
  - by destruct (is_github e).
Qed.

Lemma scan_loop_ledger now max_repos repos failure : forall count st,
  ledger_ok (scan_results st) ->
  ledger_ok (scan_results (snd (scan_loop now max_repos repos failure count st))).
Proof.
  induction repos as [| repo rest IH]; intros count st Hledger; cbn [scan_loop].
  - by destruct failure.
  - destruct (limit_reached max_repos count); [assumption |].
    unfold bind at 1. cbn [print]. unfold bind at 1.
    pose proof (scan_repository_ledger now repo
                  (mkState (scan_results st)
                     (stdout st ++ [LProgress (count + 1) (repo_full_name repo)]))
                  Hledger) as Hstep.
    destruct (scan_repository now repo _) as [[result | e] st1]; [| exact Hstep].
    cbn [snd] in Hstep. unfold bind at 1.
    destruct result as [repo_data |]; cbn [print]; apply IH; exact Hstep.
Qed.

(** The two invariants pass through [scan_all_repositories], however it
    ends. *)
Lemma scan_all_repositories_ledger user now max_repos repos st :
  ledger_ok (scan_results st) ->
  ledger_ok (scan_results (snd (scan_all_repositories user now max_repos repos st))).
Proof.
  intros Hledger. unfold scan_all_repositories.
  unfold bind at 1, call at 1.
  destruct (user_login user) as [login | e1]; [| exact Hledger].
  unfold bind at 1. cbn [print]. unfold bind at 1, call at 1.
  destruct (user_public_repos user) as [public_repos | e2]; [| exact Hledger].
  unfold bind at 1. cbn [print]. unfold bind at 1.
  match goal with
  | |- context [scan_loop ?n ?m ?rs ?f ?c ?s0] =>
      pose proof (scan_loop_ledger n m rs f c s0 Hledger) as Hloop;
      destruct (scan_loop n m rs f c s0) as [[count | e] st1]
  end; [| exact Hloop].
  cbn [snd] in Hloop.
  unfold bind at 1, set_total_repos, modify_results.
  unfold bind at 1. cbn [print].
  unfold bind at 1, get_results at 1.
  unfold bind at 1. rewrite print_summary_run.
  cbn. by apply (with_total_ledger_ok count) in Hloop.
Qed.

(** X7. However a run of [scan_all_repositories] ends, it keeps the
    buckets in step with the entries: if before the run each of the five
    buckets lists the names of the entries with its label, in order, and
    every entry has one of the five labels, the same holds after it, also
    when the run is cut short by an exception. *)
Theorem buckets_mirror_repositories (user : User) (now : Z)
    (max_repos : option Z) (repos : Listing) (st : State) :
  buckets_mirror (scan_results st) ->
  entries_labelled (scan_results st) ->
  let final := scan_results (snd (scan_all_repositories user now max_repos repos st)) in
  buckets_mirror final /\ entries_labelled final.
Proof.
  intros Hmirror Hlabelled. cbn zeta.
  exact (scan_all_repositories_ledger user now max_repos repos st
           (conj Hmirror Hlabelled)).
Qed.

Lemma buckets_mirror_repositories_witness :
  let final := scan_results (snd (scan_all_repositories owner (400 * day) None
                 (mkListing [quiet_repo; branchless; busy_repo; unreachable]
                    (Some forbidden))
                 (init 0))) in
  classifications final !! "ARCHIVE" = Some (names_classified "ARCHIVE" (repositories final)).
Proof.
  destruct (buckets_mirror_repositories owner (400 * day) None
              (mkListing [quiet_repo; branchless; busy_repo; unreachable]
                 (Some forbidden))
              (init 0))
    as (Hmirror & _).
  - apply init_ledger_ok.
  - apply init_ledger_ok.
  - apply Hmirror. vm_compute. set_solver.
Defined.

Lemma labelled_entries_split entries :
  (forall repo_data, repo_data ∈ entries -> d_classification repo_data ∈ labels) ->
  length entries =
    (length (names_classified "CORE" entries)
     + length (names_classified "ACTIVE" entries)
     + length (names_classified "CONSOLIDATE" entries)
     + length (names_classified "ARCHIVE" entries)
     + length (names_classified "DEPRECATE" entries))%nat.
Proof.
  unfold names_classified.
  induction entries as [| repo_data rest IH]; intros Hall; [reflexivity |].
  assert (d_classification repo_data ∈ labels) as Hlabel by (apply Hall; left).
  specialize (IH (fun entry Hentry => Hall entry (list_elem_of_further _ _ _ Hentry))).
  rewrite !length_map in *. rewrite !filter_cons. cbn [length]. rewrite IH.
  unfold labels in Hlabel.
  cbn beta.
  repeat (apply elem_of_cons in Hlabel as [Heq | Hlabel];
          [rewrite Heq; repeat case_decide; simplify_eq; cbn [length]; lia |]).
  by apply elem_of_nil in Hlabel.
Qed.

(** X8. The summary adds up: after a run that started from a scanner in
    step (a fresh one is), the five bucket sizes the summary prints sum to
    the number of entries in [repositories]. *)
Theorem summary_counts_add_up (user : User) (now : Z)
    (max_repos : option Z) (repos : Listing) (st : State) :
  buckets_mirror (scan_results st) ->
  entries_labelled (scan_results st) ->
  let final := scan_results (snd (scan_all_repositories user now max_repos repos st)) in
  (bucket_size final "CORE" + bucket_size final "ACTIVE"
   + bucket_size final "CONSOLIDATE" + bucket_size final "ARCHIVE"
   + bucket_size final "DEPRECATE")%nat
  = length (repositories final).
Proof.
  intros Hmirror Hlabelled. cbn zeta.
  destruct (scan_all_repositories_ledger user now max_repos repos st
              (conj Hmirror Hlabelled)) as [Hm Hl].
  unfold bucket_size.
  rewrite !Hm by (unfold labels; set_solver). cbn [default].
  symmetry. by apply labelled_entries_split.
Qed.

Lemma summary_counts_add_up_witness :
  let final := scan_results (snd (scan_all_repositories owner (400 * day) None
                 (complete [quiet_repo; branchless; busy_repo]) (init 0))) in
  (bucket_size final "CORE" + bucket_size final "ACTIVE"
   + bucket_size final "CONSOLIDATE" + bucket_size final "ARCHIVE"
   + bucket_size final "DEPRECATE")%nat = 2%nat.
Proof.
  cbn zeta.
  rewrite (summary_counts_add_up owner (400 * day) None
             (complete [quiet_repo; branchless; busy_repo]) (init 0)).
  - vm_compute. reflexivity.
  - apply init_ledger_ok.
  - apply init_ledger_ok.
Defined.

End LedgerInvariant.

Section Entries.
Import RepositoryScanner Runs Ledger Fixtures.

(** X9. An entry holds at most ten tags, the first ten of the listing,
    while the branches, the languages and the topics are recorded
    whole. *)
Theorem tags_capped_at_ten (now : Z) (repo : Repository) (repo_data : RepoData) :
  outcome now repo = Some repo_data ->
  exists tags,
    repo_get_tags repo = Ok tags
    /\ d_tags repo_data = firstn 10 tags
    /\ (length (d_tags repo_data) <= 10)%nat
    /\ ((10 < length tags)%nat -> (length (d_tags repo_data) < length tags)%nat)
    /\ repo_get_branches repo = Ok (d_branches repo_data)
    /\ repo_get_languages repo = Ok (d_languages repo_data)
    /\ repo_get_topics repo = Ok (d_topics repo_data).
Proof.
  intros Hout. apply outcome_Some in Hout. unfold build_repo_data in Hout.
  destruct (repo_get_languages repo) as [languages |]; [| discriminate].
  destruct (repo_get_branches repo) as [branches |]; [| discriminate].
  destruct (repo_get_tags repo) as [tags |]; [| discriminate].
  destruct (repo_created_at repo); [| discriminate].
  destruct (repo_updated_at repo); [| discriminate].
  destruct (repo_get_topics repo) as [topics |]; [| discriminate].
  cbn in Hout. inversion Hout; subst repo_data; clear Hout. cbn.
  exists tags. repeat split; try reflexivity.
  - rewrite length_take. lia.
  - intros Hmany. rewrite length_take. lia.
Qed.

Lemma tags_capped_at_ten_witness :
  exists repo_data,
    outcome 0 (repo_fetching "tagged" false 1 0 (Ok [0]) ([], None) (Ok ["main"])
                 (Ok (repeat "v" 12))) = Some repo_data
    /\ length (d_tags repo_data) = 10%nat.
Proof.
  eexists. split; [reflexivity |].
  destruct (tags_capped_at_ten 0
              (repo_fetching "tagged" false 1 0 (Ok [0]) ([], None) (Ok ["main"])
                 (Ok (repeat "v" 12))) _ eq_refl)
    as (tags & Htags & Hfirst & _).
  inversion Htags; subst tags. rewrite Hfirst. reflexivity.
Defined.

Lemma negative_limit_loop now n repos failure st :
  n < 0 ->
  scan_loop now (Some n) repos failure 0 st =
    match repos, failure with
    | [], Some e => (Raise e, st)
    | _, _ => (Ok 0, st)
    end.
Proof.
  intros Hn. destruct repos as [| repo rest]; cbn [scan_loop].
  - by destruct failure.
  - unfold limit_reached.
    replace (n =? 0) with false by (symmetry; apply Z.eqb_neq; lia).
    replace (0 >=? n) with true by (symmetry; apply Z.geb_le; lia).
    by destruct failure.
Qed.

Lemma negative_limit_run user now n repos st login public_repos :
  n < 0 ->
  user_login user = Ok login ->
  user_public_repos user = Ok public_repos ->
  exists out,
    scan_all_repositories user now (Some n) repos st =
      match delivered repos, failure repos with
      | [], Some e => (Raise e, mkState (scan_results st) out)
      | _, _ =>
          (Ok (with_total 0 (scan_results st)),
           mkState (with_total 0 (scan_results st)) out)
      end.
Proof.
  intros Hn Hlogin Hpublic. unfold scan_all_repositories.
  rewrite Hlogin, Hpublic.
  unfold bind at 1, call at 1. unfold bind at 1. cbn [print].
  unfold bind at 1, call at 1. unfold bind at 1. cbn [print].
  unfold bind at 1. rewrite negative_limit_loop by assumption.
  destruct (delivered repos) as [| repo rest]; [destruct (failure repos) as [e |] |].
  - by eexists.
  - unfold bind at 1, set_total_repos, modify_results.
    unfold bind at 1. cbn [print].
    unfold bind at 1, get_results at 1.
    unfold bind at 1. rewrite print_summary_run. by eexists.
  - unfold bind at 1, set_total_repos, modify_results.
    unfold bind at 1. cbn [print].
    unfold bind at 1, get_results at 1.
    unfold bind at 1. rewrite print_summary_run. by eexists.
Qed.

(** X10. A limit below zero ends the loop before anything is scanned:
    whatever the account and the listing answer, the entries and the
    buckets stay as they were.  The call returns, with [total_repos = 0],
    when the reads of the account succeed and the listing hands over a
    first repository or is empty; when the listing raises on its first
    repository that exception leaves the call and [scan_results] is
    untouched. *)
Theorem negative_limit_scans_nothing (user : User) (now n : Z)
    (repos : Listing) (st : State) :
  n < 0 ->
  let run := scan_all_repositories user now (Some n) repos st in
  repositories (scan_results (snd run)) = repositories (scan_results st)
  /\ classifications (scan_results (snd run)) = classifications (scan_results st)
  /\ (account_loaded user = true ->
      delivered repos <> [] \/ failure repos = None ->
      fst run = Ok (scan_results (snd run))
      /\ scan_results (snd run) = with_total 0 (scan_results st))
  /\ (forall e,
        account_loaded user = true ->
        delivered repos = [] ->
        failure repos = Some e ->
        fst run = Raise e /\ scan_results (snd run) = scan_results st)
  /\ (account_loaded user = false ->
      is_ok (fst run) = false /\ scan_results (snd run) = scan_results st).
Proof.
  intros Hn. cbn zeta. unfold account_loaded.
  destruct (user_login user) as [login | e1] eqn:Hlogin.
  2: { unfold scan_all_repositories, bind, call. rewrite Hlogin. cbn.
       split; [reflexivity |]. split; [reflexivity |].
       split; [intros Hloaded; discriminate Hloaded |].
       split; [intros e Hloaded; discriminate Hloaded |].
       intros _. split; reflexivity. }
  destruct (user_public_repos user) as [public_repos | e2] eqn:Hpublic.
  2: { unfold scan_all_repositories, bind, call, print.
       rewrite Hlogin, Hpublic. cbn.
       split; [reflexivity |]. split; [reflexivity |].
       split; [intros Hloaded; discriminate Hloaded |].
       split; [intros e Hloaded; discriminate Hloaded |].
       intros _. split; reflexivity. }
  destruct (negative_limit_run user now n repos st login public_repos Hn Hlogin Hpublic)
    as [out ->].
  destruct (delivered repos) as [| repo rest]; [destruct (failure repos) as [e |] |];
    cbn; (split; [reflexivity |]); (split; [reflexivity |]).
  - split. { intros _ [Hne | Hnone]; [by exfalso | discriminate Hnone]. }
    split. { intros e' _ _ Hraise. inversion Hraise; subst. split; reflexivity. }
    intros Hloaded. discriminate Hloaded.
  - split. { intros _ _. split; reflexivity. }
    split. { intros e' _ _ Hraise. discriminate Hraise. }
    intros Hloaded. discriminate Hloaded.
  - split. { intros _ _. split; reflexivity. }
    split. { intros e' _ Hnone. discriminate Hnone. }
    intros Hloaded. discriminate Hloaded.
Qed.

Lemma negative_limit_scans_nothing_witness :
  total_repos (scan_results (snd
    (scan_all_repositories owner (400 * day) (Some (-1))
       (mkListing [quiet_repo; unreachable] (Some forbidden)) (init 0)))) = 0.
Proof.
  destruct (negative_limit_scans_nothing owner (400 * day) (-1)
              (mkListing [quiet_repo; unreachable] (Some forbidden)) (init 0))
    as (_ & _ & Hreturns & _).
  - reflexivity.
  - destruct Hreturns as (_ & Hresults).
    + reflexivity.
    + left. discriminate.
    + cbn zeta in Hresults. rewrite Hresults. reflexivity.
Defined.

Lemma loop_failure_exhausted n repos failure : forall count,
  0 < n -> 0 <= count ->
  (length repos <= Z.to_nat (n - count))%nat ->
  loop_failure (Some n) repos failure count = failure.
Proof.
  induction repos as [| repo rest IH]; intros count Hn Hcount Hfits;
    cbn [length] in Hfits; [reflexivity |].
  cbn [loop_failure]. unfold limit_reached.
  replace (n =? 0) with false by (symmetry; apply Z.eqb_neq; lia).
  cbn [negb andb].
  destruct (Z.geb_spec count n) as [Hge | Hlt]; [lia |].
  apply IH; lia.
Qed.

(** X11. A positive limit [n] is kept, and failures count towards it:
    when the account is read and nothing but a [GithubException] is raised
    while a repository is scanned, exactly the first [n] repositories
    delivered are scanned (all of them if there are fewer), whether their
    scan succeeds or not.  The call returns, with [total_repos] the
    smaller of [n] and the number delivered, when the listing ends or
    delivers more than [n]; when the listing raises after at most [n]
    repositories, that exception leaves the call and [total_repos] keeps
    its old value. *)
Theorem positive_limit_scans_prefix (user : User) (now n : Z)
    (repos : Listing) (st : State) :
  0 < n ->
  buckets_ok (scan_results st) ->
  Forall (github_only now) (delivered repos) ->
  account_loaded user = true ->
  let run := scan_all_repositories user now (Some n) repos st in
  let final := scan_results (snd run) in
  scanned user (Some n) repos = firstn (Z.to_nat n) (delivered repos)
  /\ repositories final =
       repositories (scan_results st)
       ++ omap (outcome now) (firstn (Z.to_nat n) (delivered repos))
  /\ (failure repos = None \/ (Z.to_nat n < length (delivered repos))%nat ->
      fst run = Ok final
      /\ total_repos final = Z.min n (Z.of_nat (length (delivered repos))))
  /\ (forall e,
        failure repos = Some e ->
        (length (delivered repos) <= Z.to_nat n)%nat ->
        fst run = Raise e
        /\ total_repos final = total_repos (scan_results st)).
Proof.
  intros Hn Hok Hall Hloaded. cbn zeta.
  assert (scanned user (Some n) repos = firstn (Z.to_nat n) (delivered repos))
    as Hscanned.
  { unfold scanned. rewrite Hloaded, visited_limited by lia. by rewrite Z.sub_0_r. }
  destruct (scan_all_repositories_state user now (Some n) repos st Hok Hall)
    as (Hreturns & Hcut & _).
  destruct (scan_all_repositories_entries user now (Some n) repos st Hok Hall)
    as (Hentries & _).
  cbn zeta in *. rewrite Hscanned in *.
  split; [reflexivity |]. split; [exact Hentries |]. split.
  - intros Hends.
    assert (listing_raises (Some n) repos = None) as Hlisting.
    { unfold listing_raises. destruct Hends as [-> | Hmore].
      - apply loop_failure_complete.
      - apply loop_failure_limited; lia. }
    destruct Hreturns as (-> & ->); [by split |].
    split; [reflexivity |]. cbn [with_total total_repos].
    rewrite length_take. lia.
  - intros e Hraises Hfits.
    assert (listing_raises (Some n) repos = Some e) as Hlisting.
    { unfold listing_raises. rewrite loop_failure_exhausted by lia. exact Hraises. }
    destruct Hcut as (Hfails & ->).
    { intros [_ Hnone]. rewrite Hlisting in Hnone. discriminate Hnone. }
    split; [| by destruct (foldl_record_fixed
                (omap (outcome now) (firstn (Z.to_nat n) (delivered repos)))
                (scan_results st)) as (-> & _)].
    pose proof (scan_all_repositories_cut user now (Some n) repos st) as Hrun.
    unfold account_loaded in Hloaded.
    destruct (user_login user) as [login |]; [| discriminate Hloaded].
    destruct (user_public_repos user) as [public_repos |]; [| discriminate Hloaded].
    by rewrite (Hrun login public_repos e).
Qed.

Lemma positive_limit_scans_prefix_witness :
  let final := scan_results (snd (scan_all_repositories owner (400 * day) (Some 2)
                 (mkListing [quiet_repo; branchless; busy_repo] (Some forbidden))
                 (init 0))) in
  total_repos final = 2 /\ map d_name (repositories final) = ["notes"].
Proof.
  destruct (positive_limit_scans_prefix owner (400 * day) 2
              (mkListing [quiet_repo; branchless; busy_repo] (Some forbidden))
              (init 0))
    as (_ & Hentries & Hreturns & _).
  - reflexivity.
  - apply init_buckets_ok.
  - repeat constructor; vm_compute; reflexivity.
  - reflexivity.
  - cbn zeta in *. destruct Hreturns as (_ & Htotal); [right; cbn; lia |].
    rewrite Htotal, Hentries. split; vm_compute; reflexivity.
Defined.

Lemma foldl_record_buckets_ok entries : forall r,
  buckets_ok r -> buckets_ok (foldl record r entries).
Proof.
  induction entries as [| repo_data rest IH]; intros r Hok; cbn [foldl]; [assumption |].
  apply IH. by apply record_buckets_ok.
Qed.

Lemma outcomes_and_failures now repos :
  (length (omap (outcome now) repos)
   + length (filter (fun repo => scan_fails now repo = true) repos))%nat
  = length repos.
Proof.
  induction repos as [| repo rest IH]; [reflexivity |].
  cbn [omap list_omap]. rewrite filter_cons.
  pose proof (eq_refl (scan_fails now repo)) as Hfails.
  unfold scan_fails at 2 in Hfails. unfold outcome at 1.
  destruct (build_repo_data now repo); cbn [is_ok negb] in Hfails;
    case_decide; try congruence; cbn [length]; lia.
Qed.

(** X12. The failures are the gap: when the call returns and nothing
    but a [GithubException] was raised while a repository was scanned,
    [total_repos] is the number of entries the run added plus the number
    of repositories whose scan failed. *)
Theorem failures_are_the_gap (user : User) (now : Z)
    (max_repos : option Z) (repos : Listing) (st : State) :
  buckets_ok (scan_results st) ->
  Forall (github_only now) (delivered repos) ->
  account_loaded user = true ->
  listing_raises max_repos repos = None ->
  let final := scan_results (snd (scan_all_repositories user now max_repos repos st)) in
  let scanned := scanned user max_repos repos in
  total_repos final + Z.of_nat (length (repositories (scan_results st))) =
    Z.of_nat (length (repositories final))
    + Z.of_nat (length (filter (fun repo => scan_fails now repo = true) scanned)).
Proof.
  intros Hok Hall Hloaded Hlisting. cbn zeta.
  destruct (scan_all_repositories_state user now max_repos repos st Hok Hall)
    as (Hreturns & _). cbn zeta in Hreturns.
  destruct Hreturns as (_ & ->); [by split |].
  unfold with_total. cbn [total_repos repositories].
  rewrite foldl_record_repositories, length_app.
  pose proof (outcomes_and_failures now (scanned user max_repos repos)). lia.
Qed.

Lemma failures_are_the_gap_witness :
  let final := scan_results (snd (scan_all_repositories owner (400 * day) None
                 (complete [quiet_repo; branchless; tagless]) (init 0))) in
  total_repos final = Z.of_nat (length (repositories final)) + 2.
Proof.
  pose proof (failures_are_the_gap owner (400 * day) None
                (complete [quiet_repo; branchless; tagless]) (init 0)
                (init_buckets_ok 0)) as Hgap.
  cbn zeta in *. rewrite Z.add_0_r in Hgap. rewrite Hgap.
  - vm_compute. reflexivity.
  - repeat constructor; vm_compute; reflexivity.
  - reflexivity.
  - reflexivity.
Defined.

(** X13. A scanner that is run twice keeps what the first run recorded:
    when both runs return, the second appends its entries after those of
    the first, so a repository scanned in both has two entries, while
    [total_repos], whatever it was, is overwritten by each run with the
    number of repositories that run scanned. *)
Theorem rescan_accumulates (user : User) (now : Z) (max_repos : option Z)
    (first second : Listing) (st : State) :
  buckets_ok (scan_results st) ->
  Forall (github_only now) (delivered first) ->
  Forall (github_only now) (delivered second) ->
  account_loaded user = true ->
  listing_raises max_repos first = None ->
  listing_raises max_repos second = None ->
  let once := snd (scan_all_repositories user now max_repos first st) in
  let twice := snd (scan_all_repositories user now max_repos second once) in
  let added := omap (outcome now) (scanned user max_repos first) in
  let added_again := omap (outcome now) (scanned user max_repos second) in
  repositories (scan_results once) = repositories (scan_results st) ++ added
  /\ repositories (scan_results twice) =
       repositories (scan_results st) ++ added ++ added_again
  /\ total_repos (scan_results once)
       = Z.of_nat (length (scanned user max_repos first))
  /\ total_repos (scan_results twice)
       = Z.of_nat (length (scanned user max_repos second)).
Proof.
  intros Hok Hall1 Hall2 Hloaded Hlisting1 Hlisting2. cbn zeta.
  destruct (scan_all_repositories_state user now max_repos first st Hok Hall1)
    as (Hreturns1 & _). cbn zeta in Hreturns1.
  destruct Hreturns1 as (_ & Honce); [by split |].
  assert (buckets_ok (scan_results (snd (scan_all_repositories user now max_repos
                                           first st)))) as Hok1.
  { rewrite Honce. intros l Hl. unfold with_total. cbn [classifications].
    by apply foldl_record_buckets_ok. }
  destruct (scan_all_repositories_state user now max_repos second _ Hok1 Hall2)
    as (Hreturns2 & _). cbn zeta in Hreturns2.
  destruct Hreturns2 as (_ & ->); [by split |].
  rewrite Honce. unfold with_total. cbn [repositories total_repos].
  rewrite !foldl_record_repositories. cbn [repositories].
  rewrite ?foldl_record_repositories.
  repeat split; try reflexivity. by rewrite <- app_assoc.
Qed.

Lemma rescan_accumulates_witness :
  let once := snd (scan_all_repositories owner (400 * day) None
                     (complete [quiet_repo; branchless]) (init 0)) in
  let twice := snd (scan_all_repositories owner (400 * day) None
                      (complete [quiet_repo]) once) in
  map d_name (repositories (scan_results twice)) = ["notes"; "notes"]
  /\ total_repos (scan_results once) = 2
  /\ total_repos (scan_results twice) = 1.
Proof.
  destruct (rescan_accumulates owner (400 * day) None
              (complete [quiet_repo; branchless]) (complete [quiet_repo]) (init 0))
    as (_ & Htwice & Honce & Htotal).
  - apply init_buckets_ok.
  - repeat constructor; vm_compute; reflexivity.
  - repeat constructor; vm_compute; reflexivity.
  - reflexivity.
  - reflexivity.
  - reflexivity.
  - cbn zeta in *. rewrite Htwice, Honce, Htotal. repeat split; vm_compute; reflexivity.
Defined.

End Entries.

(** ** Further properties of [scan_notion] and [scan_all_platforms] *)

Section Snapshots.
Import PlatformScanner Summary Snapshot Fixtures.



Lemma get_default_error v key default e :
  get_default v key default = Raise e -> lookup_error e.
Proof.
  unfold lookup_error. destruct v; cbn; intros Hraise; inversion Hraise; cbn; tauto.
Qed.

Lemma getitem_error v key e : getitem v key = Raise e -> lookup_error e.
Proof.
  unfold lookup_error. destruct v as [| | | | | entries]; cbn; intros Hraise;
    try (inversion Hraise; cbn; tauto).
  destruct (assoc key entries); inversion Hraise; cbn; tauto.
Qed.

Lemma getitem0_error v e : getitem0 v = Raise e -> lookup_error e.
Proof.
  unfold lookup_error.
  destruct v as [| | | [| ? ?] | [| ? ?] |]; cbn; intros Hraise;
    inversion Hraise; cbn; tauto.
Qed.

Ltac lookup_step H :=
  match type of H with
  | rbind ?r _ = Raise _ =>
      let Hr := fresh "Hr" in
      destruct r eqn:Hr; cbn [rbind] in H;
      [| inversion H; subst;
         first [ eapply get_default_error; eassumption
               | eapply getitem_error; eassumption
               | eapply getitem0_error; eassumption ]]
  end.

Lemma page_title_of_error page e : page_title_of page = Raise e -> lookup_error e.
Proof.
  unfold page_title_of. intros Hraise.
  do 4 lookup_step Hraise. eapply get_default_error; eassumption.
Qed.

Lemma db_title_of_error db e : db_title_of db = Raise e -> lookup_error e.
Proof.
  unfold db_title_of. intros Hraise.
  do 2 lookup_step Hraise. eapply get_default_error; eassumption.
Qed.

Lemma extract_page_error page e : extract_page page = Raise e -> lookup_error e.
Proof.
  unfold extract_page, get. intros Hraise.
  lookup_step Hraise.
  destruct (page_title_of page) eqn:Htitle; cbn [rbind] in Hraise;
    [| inversion Hraise; subst; eapply page_title_of_error; eassumption].
  do 3 lookup_step Hraise. discriminate Hraise.
Qed.

Lemma rmap_first_failure {A B} (f : A -> result B) (xs : list A) :
  (exists x, x ∈ xs /\ is_ok (f x) = false) ->
  exists before x after e,
    xs = before ++ x :: after
    /\ Forall (fun y => is_ok (f y) = true) before
    /\ f x = Raise e
    /\ rmap f xs = Raise e.
Proof.
  induction xs as [| x rest IH]; intros (bad & Hin & Hbad).
  - by apply elem_of_nil in Hin.
  - cbn [rmap]. destruct (f x) as [y | e] eqn:Hfx; cbn [rbind].
    + apply elem_of_cons in Hin as [-> | Hin].
      { rewrite Hfx in Hbad. discriminate Hbad. }
      destruct IH as (before & x' & after & e & -> & Hbefore & Hfx' & Hmap);
        [by exists bad |].
      exists (x :: before), x', after, e. rewrite Hmap. cbn [rbind].
      repeat split; try assumption.
      apply Forall_cons. split; [by rewrite Hfx | assumption].
    + exists [], x, rest, e. repeat split; [constructor | assumption].
Qed.

(** X15. One record spoils the scan: when the client is installed and
    the page search answers, but some page enumerated cannot be
    extracted, [scan_notion] returns an error result that carries the text
    of the exception raised by the first such page, the one before which
    every page is extracted, and none of the pages; the exception is a
    lookup error of the extraction, never mistaken for a missing client. *)
Theorem one_bad_page_fails_scan (notion : Notion) (api_key : string) (st : State)
    (page_response : pyval) (page_items : list pyval) :
  notion_client_installed notion = true ->
  search_pages notion = Ok page_response ->
  rbind (get_default page_response "results" (PList [])) iter = Ok page_items ->
  (exists page, page ∈ page_items /\ is_ok (extract_page page) = false) ->
  exists before page after e,
    page_items = before ++ page :: after
    /\ Forall (fun earlier => is_ok (extract_page earlier) = true) before
    /\ extract_page page = Raise e
    /\ lookup_error e
    /\ fst (scan_notion notion api_key st) = Ok (Error (exn_msg e)).
Proof.
  intros Hinstalled Hsearch Hitems Hbad.
  destruct (rmap_first_failure extract_page page_items Hbad)
    as (before & page & after & e & Hsplit & Hbefore & Hraise & Hmap).
  exists before, page, after, e.
  pose proof (extract_page_error page e Hraise) as Hlookup.
  repeat split; try assumption.
  rewrite scan_notion_run. cbn [fst]. f_equal.
  unfold notion_outcome, scan_notion_body, import_client, extract_all.
  rewrite Hinstalled, Hsearch. cbn [rbind].
  destruct (get_default page_response "results" (PList [])) as [results |];
    [| discriminate]. cbn [rbind] in *.
  rewrite Hitems. cbn [rbind]. rewrite Hmap. cbn [rbind].
  unfold is_import_error, str_exn.
  destruct Hlookup as [-> | [-> | [-> | ->]]]; reflexivity.
Qed.

Lemma one_bad_page_fails_scan_witness :
  fst (scan_notion (workspace [titled_page; untitled_page; bare_page; untitled_page] [])
         "secret" (init 0))
  = Ok (Error "list index out of range").
Proof.
  destruct (one_bad_page_fails_scan
              (workspace [titled_page; untitled_page; bare_page; untitled_page] [])
              "secret" (init 0)
              (response [titled_page; untitled_page; bare_page; untitled_page])
              [titled_page; untitled_page; bare_page; untitled_page])
    as (before & page & after & e & Hsplit & _ & Hraise & _ & Hscan).
  - reflexivity.
  - reflexivity.
  - reflexivity.
  - exists untitled_page. split; [set_solver | reflexivity].
  - rewrite Hscan. do 2 f_equal.
    assert (page ∈ [titled_page; untitled_page; bare_page; untitled_page]) as Hin
      by (rewrite Hsplit; set_solver).
    apply elem_of_cons in Hin as [-> | Hin]; [vm_compute in Hraise; discriminate |].
    apply elem_of_cons in Hin as [-> | Hin];
      [vm_compute in Hraise; by inversion Hraise |].
    apply elem_of_cons in Hin as [-> | Hin]; [vm_compute in Hraise; discriminate |].
    apply elem_of_cons in Hin as [-> | Hin];
      [vm_compute in Hraise; by inversion Hraise |].
    by apply elem_of_nil in Hin.
Defined.

(** X16. The defaults of the title lookup cover missing keys only.  A
    page record with an [id] and no [properties] key gets the title
    "Untitled"; one whose [properties] is present but null raises
    [AttributeError]; one whose title list is present but empty raises
    [IndexError]. *)
Theorem title_defaults_cover_missing_keys_only (entries : list (string * pyval)) :
  (assoc "properties" entries = None ->
   page_title_of (PDict entries) = Ok (PStr "Untitled"))
  /\ (assoc "properties" entries = Some PNone ->
      exists e, page_title_of (PDict entries) = Raise e
                /\ exn_cls e = AttributeError)
  /\ (forall properties title_property,
        assoc "properties" entries = Some (PDict properties) ->
        assoc "title" properties = Some (PDict title_property) ->
        assoc "title" title_property = Some (PList []) ->
        exists e, page_title_of (PDict entries) = Raise e
                  /\ exn_cls e = IndexError).
Proof.
  unfold page_title_of. repeat split.
  - intros Hmissing. cbn. rewrite Hmissing. reflexivity.
  - intros Hnull. cbn. rewrite Hnull. cbn. by eexists.
  - intros properties title_property Hprops Htitle Hempty.
    cbn. rewrite Hprops. cbn. rewrite Htitle. cbn. rewrite Hempty. cbn.
    by eexists.
Qed.

Lemma title_defaults_cover_missing_keys_only_witness :
  page_title_of bare_page = Ok (PStr "Untitled").
Proof.
  apply (title_defaults_cover_missing_keys_only
           [("object", PStr "page"); ("id", PStr "p3")]).
  reflexivity.
Defined.

(** X17. The title of a page is the text of the first fragment of its
    title list; what follows the first fragment is not read. *)
Theorem page_title_is_first_fragment (entries properties title_property fragment
    : list (string * pyval)) (more : list pyval) :
  assoc "properties" entries = Some (PDict properties) ->
  assoc "title" properties = Some (PDict title_property) ->
  assoc "title" title_property = Some (PList (PDict fragment :: more)) ->
  page_title_of (PDict entries) =
    Ok (default (PStr "Untitled") (assoc "plain_text" fragment)).
Proof.
  intros Hprops Htitle Hlist. unfold page_title_of.
  cbn. rewrite Hprops. cbn. rewrite Htitle. cbn. rewrite Hlist. cbn.
  by destruct (assoc "plain_text" fragment).
Qed.

End Snapshots.

Section SnapshotUpdates.
Import PlatformScanner Summary Snapshot Fixtures.

Lemma page_title_is_first_fragment_witness :
  page_title_of
    (PDict [("id", PStr "p4");
            ("properties",
             PDict [("title",
                     PDict [("title",
                             PList [rich_text "Road"; rich_text "map"])])])])
  = Ok (PStr "Road").
Proof.
  apply (page_title_is_first_fragment
           [("id", PStr "p4");
            ("properties",
             PDict [("title",
                     PDict [("title",
                             PList [rich_text "Road"; rich_text "map"])])])]
           [("title", PDict [("title", PList [rich_text "Road"; rich_text "map"])])]
           [("title", PList [rich_text "Road"; rich_text "map"])]
           [("type", PStr "text"); ("plain_text", PStr "Road")]
           [rich_text "map"]); reflexivity.
Defined.

(** [self.scan_results] after [scan_all_platforms], from any state: the
    entries written over those that were there. *)
Lemma scan_all_platforms_results environ notion st :
  let run := scan_all_platforms environ notion st in
  fst run = Ok (scan_results (snd run))
  /\ scan_timestamp (scan_results (snd run)) = scan_timestamp (scan_results st)
  /\ scanner_version (scan_results (snd run)) = scanner_version (scan_results st)
  /\ forall platform,
       platforms (scan_results (snd run)) !! platform =
         match written_entry environ notion platform with
         | Some r => Some r
         | None => platforms (scan_results st) !! platform
         end.
Proof.
  unfold scan_all_platforms, scan_if_configured, written_entry.
  unfold bind at 1. cbn [print].
  destruct (truthy_str (environ !! "NOTION_API_KEY"));
    destruct (truthy_str (environ !! "LINEAR_API_KEY"));
    destruct (truthy_str (environ !! "JIRA_API_TOKEN"));
    unfold bind, scan_linear, scan_jira, set_platform, print, get_results, ret;
    rewrite ?scan_notion_run; cbn;
    (repeat split; [intros platform;
      repeat (rewrite lookup_insert; case_decide; subst);
      repeat case_decide; try congruence; reflexivity]).
Qed.



Lemma snapshot_eq (r1 r2 : ScanResults) :
  scan_timestamp r1 = scan_timestamp r2 ->
  scanner_version r1 = scanner_version r2 ->
  platforms r1 = platforms r2 ->
  r1 = r2.
Proof. destruct r1, r2. cbn. congruence. Qed.

(** X19. Running [scan_all_platforms] again in the same environment,
    against the same answers, changes nothing in [scan_results]. *)
Theorem scan_all_platforms_idempotent
    (environ : gmap string string) (notion : Notion) (st : State) :
  let once := snd (scan_all_platforms environ notion st) in
  let twice := snd (scan_all_platforms environ notion once) in
  scan_results twice = scan_results once.
Proof.
  cbn zeta.
  destruct (scan_all_platforms_results environ notion st)
    as (_ & Htime1 & Hversion1 & Hlookup1).
  destruct (scan_all_platforms_results environ notion
              (snd (scan_all_platforms environ notion st)))
    as (_ & Htime2 & Hversion2 & Hlookup2).
  cbn zeta in *.
  apply snapshot_eq.
  - congruence.
  - congruence.
  - apply map_eq. intros platform. rewrite Hlookup2, Hlookup1.
    by destruct (written_entry environ notion platform).
Qed.

Lemma scan_all_platforms_idempotent_witness :
  let once := snd (scan_all_platforms {["NOTION_API_KEY" := "secret"]}
                     (workspace [titled_page] []) (init 0)) in
  scan_results (snd (scan_all_platforms {["NOTION_API_KEY" := "secret"]}
                       (workspace [titled_page] []) once))
  = scan_results once.
Proof.
  exact (scan_all_platforms_idempotent {["NOTION_API_KEY" := "secret"]}
           (workspace [titled_page] []) (init 0)).
Defined.

(** X20. A failure of the database search discards the pages: when
    the pages were enumerated and extracted but the second search raises,
    [scan_notion] returns the error result (the skipped one if the
    exception is an [ImportError]) and none of the pages. *)
Theorem database_failure_discards_pages (notion : Notion) (api_key : string)
    (st : State) (page_response : pyval) (pages : list Page) (e : exn) :
  notion_client_installed notion = true ->
  search_pages notion = Ok page_response ->
  extract_all extract_page page_response = Ok pages ->
  search_databases notion = Raise e ->
  fst (scan_notion notion api_key st) =
    Ok (if is_import_error e then Skipped "notion-client not installed"
        else Error (exn_msg e))
  /\ pages_of (notion_outcome notion) = [].
Proof.
  intros Hinstalled Hsearch Hpages Hraise. rewrite scan_notion_run. cbn [fst].
  unfold notion_outcome, scan_notion_body, import_client.
  rewrite Hinstalled, Hsearch. cbn [rbind]. rewrite Hpages. cbn [rbind].
  rewrite Hraise. cbn [rbind]. unfold str_exn.
  by destruct (is_import_error e).
Qed.

Lemma database_failure_discards_pages_witness :
  fst (scan_notion
         (mkNotion true (Ok (response [titled_page]))
            (Raise (mkExn OtherException "502 Bad Gateway")))
         "secret" (init 0))
  = Ok (Error "502 Bad Gateway").
Proof.
  apply (database_failure_discards_pages
           (mkNotion true (Ok (response [titled_page]))
              (Raise (mkExn OtherException "502 Bad Gateway")))
           "secret" (init 0) (response [titled_page])
           [mkPage (PStr "p1") (PStr "Roadmap") (PStr "https://www.notion.so/p1")
              PNone PNone]
           (mkExn OtherException "502 Bad Gateway")); reflexivity.
Defined.

End SnapshotUpdates.

(** ** Properties of the entry points *)

Section EntryPoints.
Import RepositoryScanner Runs Fixtures Os OsFixtures RepositoryMain.

Lemma upto_last_slash_none p : has_slash p = false -> upto_last_slash p = "".
Proof.
  destruct p as [| c rest]; [reflexivity |]. cbn.
  intros Hnone. apply orb_false_iff in Hnone as [Hc Hrest].
  by rewrite Hrest, Hc.
Qed.

Lemma dirname_bare p : has_slash p = false -> dirname p = "".
Proof. intros Hnone. unfold dirname. by rewrite upto_last_slash_none. Qed.

Example dirname_default : dirname (args_output default_args) = "inventory".
Proof. reflexivity. Qed.



Lemma account_loaded_reads user :
  account_loaded user = true ->
  exists login public_repos,
    user_login user = Ok login /\ user_public_repos user = Ok public_repos.
Proof.
  unfold account_loaded.
  destruct (user_login user) as [login |]; [| discriminate].
  destruct (user_public_repos user) as [public_repos |]; [| discriminate].
  intros _. by exists login, public_repos.
Qed.

(** X22. With a token, when the reads of the account and the listing
    raise nothing, nothing but a [GithubException] is raised while a
    repository is scanned, and the directory and the file can be made,
    [main] returns and the file at [--output] holds the results of the
    scan: the entries of the repositories scanned without failure, and
    [total_repos]. *)
Theorem main_saves_the_scan (environ : gmap string string) (args : Args)
    (github : Github) (utcnow now : Z) (os : Os) :
  truthy_str (environ !! "GITHUB_TOKEN") = true ->
  account_loaded (gh_user github) = true ->
  listing_raises (args_max_repos args) (gh_repos github) = None ->
  Forall (github_only now) (delivered (gh_repos github)) ->
  os_makedirs os (dirname (args_output args)) = Ok tt ->
  os_open os (args_output args) = Ok tt ->
  let run := main environ args github utcnow now os in
  fst run = Returned
  /\ written (snd run) =
       {[ args_output args :=
            final_results now (args_max_repos args) (delivered (gh_repos github))
              (init_results utcnow) ]}
  /\ last (console (snd run)) = Some ScanComplete.
Proof.
  intros Htoken Hloaded Hlisting Hall Hmakedirs Hopen. cbn zeta. unfold main.
  rewrite Htoken. cbn [negb]. cbn zeta.
  destruct (account_loaded_reads _ Hloaded) as (login & public_repos & Hlogin & Hpublic).
  rewrite (scan_all_repositories_run _ _ _ _ _ login public_repos)
    by (try apply init_buckets_ok; assumption).
  cbn zeta. unfold save_results, bind, call, dump, print.
  rewrite Hmakedirs, Hopen. cbn [fst snd written console scan_results init].
  repeat split. by rewrite last_snoc.
Qed.

Lemma main_saves_the_scan_witness :
  let run := main {["GITHUB_TOKEN" := "ghp_x"]} default_args
               (mkGithub owner (complete [quiet_repo; branchless]))
               0 (400 * day) posix in
  fst run = Returned
  /\ (total_repos <$> written (snd run) !! "inventory/repositories.json") = Some 2
  /\ (map d_name ∘ repositories <$> written (snd run) !! "inventory/repositories.json")
     = Some ["notes"].
Proof.
  destruct (main_saves_the_scan {["GITHUB_TOKEN" := "ghp_x"]} default_args
              (mkGithub owner (complete [quiet_repo; branchless]))
              0 (400 * day) posix)
    as (Hexit & Hwritten & _).
  - reflexivity.
  - reflexivity.
  - reflexivity.
  - repeat constructor; vm_compute; reflexivity.
  - reflexivity.
  - reflexivity.
  - cbn zeta in *. rewrite Hexit, Hwritten.
    split; [reflexivity |]. cbn [args_output default_args].
    rewrite lookup_singleton_eq. split; vm_compute; reflexivity.
Defined.

(** X23. A bare file name loses the scan.  When [--output] has no slash,
    [save_results] asks for the directory with the empty name; if the
    system refuses it, as [os.makedirs] does, no file is written and
    [main] does not return, however the scan went.  When the scan has run
    and returned, [main] ends with the exception of the refusal, after
    the scan printed its lines. *)
Theorem bare_output_loses_the_scan (environ : gmap string string) (args : Args)
    (github : Github) (utcnow now : Z) (os : Os) (e : exn) :
  truthy_str (environ !! "GITHUB_TOKEN") = true ->
  has_slash (args_output args) = false ->
  os_makedirs os "" = Raise e ->
  let run := main environ args github utcnow now os in
  written (snd run) = ∅
  /\ fst run <> Returned
  /\ (account_loaded (gh_user github) = true ->
      listing_raises (args_max_repos args) (gh_repos github) = None ->
      Forall (github_only now) (delivered (gh_repos github)) ->
      fst run = Uncaught e
      /\ (forall public_repos,
            user_public_repos (gh_user github) = Ok public_repos ->
            LTotalRepositories public_repos ∈
              omap (fun c => match c with FromScanner l => Some l | _ => None end)
                (console (snd run)))).
Proof.
  intros Htoken Hbare Hrefused. cbn zeta.
  split; [| split].
  - unfold main. rewrite Htoken. cbn [negb]. cbn zeta.
    destruct (scan_all_repositories _ _ _ _ _) as [[results | e'] scanner'];
      [| reflexivity].
    unfold save_results, bind, call.
    by rewrite (dirname_bare _ Hbare), Hrefused.
  - unfold main. rewrite Htoken. cbn [negb]. cbn zeta.
    destruct (scan_all_repositories _ _ _ _ _) as [[results | e'] scanner'];
      [| discriminate].
    unfold save_results, bind, call.
    rewrite (dirname_bare _ Hbare), Hrefused. discriminate.
  - intros Hloaded Hlisting Hall. unfold main.
    rewrite Htoken. cbn [negb]. cbn zeta.
    destruct (account_loaded_reads _ Hloaded)
      as (login & public_repos & Hlogin & Hpublic).
    rewrite (scan_all_repositories_run _ _ _ _ _ login public_repos)
      by (try apply init_buckets_ok; assumption).
    cbn zeta. unfold save_results, bind, call.
    rewrite (dirname_bare _ Hbare), Hrefused. cbn [fst snd written console stdout init].
    split; [reflexivity |].
    intros n Hn. rewrite Hpublic in Hn. inversion Hn; subst n.
    apply list_elem_of_omap. exists (FromScanner (LTotalRepositories public_repos)).
    split; [| reflexivity].
    apply (list_elem_of_fmap_2 FromScanner). cbn [app]. set_solver.
Qed.

Lemma bare_output_loses_the_scan_witness :
  let run := main {["GITHUB_TOKEN" := "ghp_x"]}
               (mkArgs "repositories.json" None "json")
               (mkGithub owner (complete [quiet_repo])) 0 (400 * day) posix in
  fst run = Uncaught no_such_directory /\ written (snd run) = ∅.
Proof.
  destruct (bare_output_loses_the_scan {["GITHUB_TOKEN" := "ghp_x"]}
              (mkArgs "repositories.json" None "json")
              (mkGithub owner (complete [quiet_repo])) 0 (400 * day) posix
              no_such_directory)
    as (Hwritten & _ & Hexit).
  - reflexivity.
  - reflexivity.
  - reflexivity.
  - cbn zeta in *. destruct Hexit as (Hexit & _).
    + reflexivity.
    + reflexivity.
    + repeat constructor; vm_compute; reflexivity.
    + by rewrite Hexit, Hwritten.
Defined.

End EntryPoints.

Section Crashes.
Import RepositoryScanner Runs Fixtures Os OsFixtures RepositoryMain.

Lemma scan_loop_abort now good bad rest failure e : forall count st,
  buckets_ok (scan_results st) ->
  Forall (github_only now) good ->
  build_repo_data now bad = Raise e ->
  is_github e = false ->
  fst (scan_loop now None (good ++ bad :: rest) failure count st) = Raise e.
Proof.
  induction good as [| repo good' IH]; intros count st Hok Hall Hraise Hclass.
  - cbn [app scan_loop limit_reached]. unfold bind at 1. cbn [RepositoryScanner.print].
    unfold bind at 1. rewrite scan_repository_cases by assumption.
    rewrite Hraise, Hclass. reflexivity.
  - apply Forall_cons in Hall as [Hrepo Hgood].
    cbn [app scan_loop limit_reached]. unfold bind at 1. cbn [RepositoryScanner.print].
    unfold bind at 1. rewrite scan_repository_cases by assumption.
    unfold github_only in Hrepo.
    destruct (build_repo_data now repo) as [repo_data | e'].
    + unfold bind at 1. cbn [RepositoryScanner.print]. apply IH; try assumption.
      cbn. by apply record_buckets_ok.
    + rewrite Hrepo. unfold bind at 1. cbn [RepositoryScanner.print]. by apply IH.
Qed.

Lemma scan_all_repositories_abort user now good bad rest failure e st :
  buckets_ok (RepositoryScanner.scan_results st) ->
  account_loaded user = true ->
  Forall (github_only now) good ->
  build_repo_data now bad = Raise e ->
  is_github e = false ->
  fst (scan_all_repositories user now None
         (mkListing (good ++ bad :: rest) failure) st) = Raise e.
Proof.
  intros Hok Hloaded Hall Hraise Hclass. unfold scan_all_repositories.
  destruct (account_loaded_reads _ Hloaded) as (login & public_repos & -> & ->).
  unfold bind at 1, call at 1. unfold bind at 1. cbn [RepositoryScanner.print].
  unfold bind at 1, call at 1. unfold bind at 1. cbn [RepositoryScanner.print].
  unfold bind at 1. cbn [delivered RepositoryScanner.failure].
  match goal with
  | |- context [scan_loop ?n ?m ?rs ?f ?c ?s0] =>
      pose proof (scan_loop_abort n good bad rest f e c s0 Hok Hall Hraise Hclass)
        as Habort;
      destruct (scan_loop n m rs f c s0) as [[count | e'] st']
  end.
  - discriminate Habort.
  - cbn in *. by inversion Habort.
Qed.

(** X24. An exception of another class than [GithubException], raised
    while a repository is scanned, ends [main]: no file is written and
    [main] does not return.  When the account was read, the exception
    that reaches the top is that one. *)
Theorem scan_crash_saves_nothing (environ : gmap string string) (args : Args)
    (user : User) (good rest : list Repository) (bad : Repository)
    (failure : option exn) (utcnow now : Z) (os : Os) (e : exn) :
  truthy_str (environ !! "GITHUB_TOKEN") = true ->
  args_max_repos args = None ->
  Forall (github_only now) good ->
  build_repo_data now bad = Raise e ->
  is_github e = false ->
  let run := main environ args
               (mkGithub user (mkListing (good ++ bad :: rest) failure))
               utcnow now os in
  written (snd run) = ∅
  /\ fst run <> Returned
  /\ (account_loaded user = true -> fst run = Uncaught e).
Proof.
  intros Htoken Hlimit Hall Hraise Hclass. cbn zeta. unfold main.
  rewrite Htoken, Hlimit. cbn [negb gh_user gh_repos]. cbn zeta.
  destruct (account_loaded user) eqn:Hloaded.
  - pose proof (scan_all_repositories_abort user now good bad rest failure e
                  (init utcnow) (init_buckets_ok utcnow) Hloaded Hall Hraise Hclass)
      as Habort.
    destruct (scan_all_repositories user now None _ (init utcnow))
      as [[results | e'] scanner'].
    + discriminate Habort.
    + cbn in Habort. inversion Habort; subst e'.
      split; [reflexivity |]. split; [discriminate | reflexivity].
  - assert (is_ok (fst (scan_all_repositories user now None
                          (mkListing (good ++ bad :: rest) failure) (init utcnow)))
            = false) as Hfails.
    { unfold account_loaded in Hloaded. unfold scan_all_repositories.
      destruct (user_login user) as [login | e1].
      - destruct (user_public_repos user) as [public_repos | e2];
          [discriminate Hloaded | reflexivity].
      - reflexivity. }
    destruct (scan_all_repositories user now None _ (init utcnow))
      as [[results | e'] scanner'].
    + discriminate Hfails.
    + split; [reflexivity |]. split; [discriminate | intros Hno; discriminate Hno].
Qed.

Lemma scan_crash_saves_nothing_witness :
  let run := main {["GITHUB_TOKEN" := "ghp_x"]} default_args
               (mkGithub owner
                  (mkListing ([quiet_repo; branchless] ++ unreachable :: [busy_repo])
                     None))
               0 (400 * day) posix in
  fst run = Uncaught connection_reset /\ written (snd run) = ∅.
Proof.
  destruct (scan_crash_saves_nothing {["GITHUB_TOKEN" := "ghp_x"]} default_args owner
              [quiet_repo; branchless] [busy_repo] unreachable None 0 (400 * day) posix
              connection_reset)
    as (Hwritten & _ & Hexit).
  - reflexivity.
  - reflexivity.
  - repeat constructor; vm_compute; reflexivity.
  - reflexivity.
  - reflexivity.
  - cbn zeta in *. split; [by apply Hexit | exact Hwritten].
Defined.

End Crashes.

Section PlatformEntryPoint.
Import PlatformScanner Summary Snapshot Fixtures Os OsFixtures PlatformMain.



(** X26. The platform script loses its scan in the same way on a bare
    file name: with no slash in [--output] the directory asked for has
    the empty name, and if the system refuses it [main] ends with that
    exception and writes no file. *)
Theorem platform_bare_output_loses_the_scan (environ : gmap string string)
    (output : string) (notion : Notion) (utcnow : Z) (os : Os) (e : exn) :
  has_slash output = false ->
  os_makedirs os "" = Raise e ->
  let run := main environ output notion utcnow os in
  fst run = Uncaught e /\ written (snd run) = ∅.
Proof.
  intros Hbare Hrefused. cbn zeta. unfold main.
  destruct (scan_all_platforms_results environ notion (init utcnow))
    as (Hreturns & _). cbn zeta in *.
  destruct (scan_all_platforms environ notion (init utcnow)) as [[results | e'] scanner'].
  2: discriminate Hreturns.
  unfold save_results, bind, call.
  rewrite (dirname_bare _ Hbare), Hrefused. split; reflexivity.
Qed.

Lemma platform_bare_output_loses_the_scan_witness :
  fst (main {["NOTION_API_KEY" := "secret"]} "platforms.json"
         (workspace [titled_page] []) 0 posix)
  = Uncaught no_such_directory.
Proof.
  apply (platform_bare_output_loses_the_scan {["NOTION_API_KEY" := "secret"]}
           "platforms.json" (workspace [titled_page] []) 0 posix no_such_directory);
    reflexivity.
Defined.

End PlatformEntryPoint.
